(** * The collections listing endpoint (get-collections v4)

    A shallow embedding of [src/api/endpoints/collections/get-collections/v4.ts]:
    the request schema, the handler that composes the SQL statement, the
    projection of the rows into the response and the continuation token.

    The handler talks to PostgreSQL through [edb.manyOrNone]. The statement
    it composes is kept as data ([Sql.Statement]); [Sql.render] gives back the
    text the handler concatenates, and [Store.manyOrNone] gives the fragment
    of SQL the handler can emit its PostgreSQL meaning (three-valued WHERE,
    ORDER BY with a placement of nulls, LIMIT). *)

From Stdlib Require Import List String Ascii Bool ZArith QArith Lia.
From Stdlib Require Import Permutation Sorted DecimalString DecimalZ DecimalPos.
Import ListNotations.

Local Open Scope list_scope.
Local Open Scope string_scope.
Local Open Scope Z_scope.

Set Implicit Arguments.

(** ** Failures and the error monad of the request *)

(** What the database driver can reject a statement with. *)
Inductive DbError : Type :=
| MissingProperty (name : string)      (* pg-promise: a [$/name/] without a value *)
| InvalidNumericSyntax (lit : string)  (* PostgreSQL: invalid input syntax for type numeric *)
| NegativeLimit.                       (* PostgreSQL: LIMIT must not be negative *)

(** What a request can fail with. The handler has one [catch], which logs
    and rethrows: the failure reaches the caller as it was raised. *)
Inductive Failure : Type :=
| ValidationError (key : string) (reason : string)  (* the Joi schema of the route *)
| ResolverError (setId : string)                    (* CollectionSets.getCollectionsIds rejected *)
| StoreError (e : DbError).                         (* edb.manyOrNone rejected *)

Inductive Result (A : Type) : Type :=
| Ok (a : A)
| Err (e : Failure).

Arguments Ok {A} a.
Arguments Err {A} e.

Definition bind {A B : Type} (m : Result A) (k : A -> Result B) : Result B :=
  match m with
  | Ok a => k a
  | Err e => Err e
  end.

Declare Scope result_scope.
Delimit Scope result_scope with result.
Notation "x <- m ;; k" := (bind m (fun x => k))
  (at level 61, m at next level, right associativity) : result_scope.
Local Open Scope result_scope.

Fixpoint mapM {A B : Type} (f : A -> Result B) (l : list A) : Result (list B) :=
  match l with
  | [] => Ok []
  | a :: l' => b <- f a ;; bs <- mapM f l' ;; Ok (b :: bs)
  end.

Definition is_ok {A : Type} (m : Result A) : bool :=
  match m with Ok _ => true | Err _ => false end.

(** ** JavaScript values, as far as the handler inspects them *)

Inductive JsVal : Type :=
| JNull
| JStr (s : string)
| JNum (n : Z).

(** The test of [v ? a : b], [if (v)] and [v || w]. *)
Definition truthy (v : JsVal) : bool :=
  match v with
  | JNull => false
  | JStr s => negb (s =? "")%string
  | JNum n => negb (n =? 0)
  end.

(** [if (query.x)] for an optional string of the query. *)
Definition present (o : option string) : bool :=
  match o with
  | Some s => negb (s =? "")%string
  | None => false
  end.

Definition JsNumber : Type := Q.

Definition Buffer : Type := list Byte.byte.

Fixpoint buffer_eqb (a b : Buffer) : bool :=
  match a, b with
  | [], [] => true
  | x :: a', y :: b' => Byte.eqb x y && buffer_eqb a' b'
  | _, _ => false
  end.

(** ** Text of numeric values

    node-postgres hands a NUMERIC column to JavaScript as its decimal text
    (the response schema of the route types [continuation], which is such a
    column value, as [Joi.string().allow(null)]), and PostgreSQL reads a
    quoted literal compared with a NUMERIC column as a number, rejecting the
    statement when it is not one. The volumes are NUMERIC(78, 0): the text
    is that of an integer, an optional minus sign and decimal digits, which
    is all that [numeric_out] writes and all that [numeric_in] reads (the
    input function of PostgreSQL reads other spellings of a number too,
    such as a fraction or an exponent). *)
Module Numeric.

Definition numeric_out (z : Z) : string :=
  NilZero.string_of_int (Z.to_int z).

Definition numeric_in (s : string) : option Z :=
  option_map Z.of_int (NilZero.int_of_string s).

(** How the driver delivers a nullable NUMERIC column. *)
Definition deliver (v : option Z) : JsVal :=
  match v with
  | Some z => JStr (numeric_out z)
  | None => JNull
  end.

End Numeric.

(** ** Strings *)

Definition lower_ascii (c : ascii) : ascii :=
  let n := nat_of_ascii c in
  if (Nat.leb 65 n && Nat.leb n 90)%bool then ascii_of_nat (n + 32) else c.

Fixpoint toLowerCase (s : string) : string :=
  match s with
  | EmptyString => EmptyString
  | String c s' => String (lower_ascii c) (toLowerCase s')
  end.

Definition is_hex_digit (c : ascii) : bool :=
  let n := nat_of_ascii c in
  ((Nat.leb 48 n && Nat.leb n 57) || (Nat.leb 97 n && Nat.leb n 102)
   || (Nat.leb 65 n && Nat.leb n 70))%bool.

Fixpoint all_hex (s : string) : bool :=
  match s with
  | EmptyString => true
  | String c s' => is_hex_digit c && all_hex s'
  end.

(** [/^0x[a-fA-F0-9]{40}$/] *)
Definition is_address (s : string) : bool :=
  match s with
  | String "0" (String "x" digits) =>
      (Nat.eqb (String.length digits) 40 && all_hex digits)%bool
  | _ => false
  end.

(** ** The statement the handler composes *)
Module Sql.

(** The four volume columns of [collections], the only ones the handler
    orders by or compares the continuation with. *)
Inductive Column : Type :=
| Day1Volume
| Day7Volume
| Day30Volume
| AllTimeVolume.

Definition column_name (c : Column) : string :=
  match c with
  | Day1Volume => "collections.day1_volume"
  | Day7Volume => "collections.day7_volume"
  | Day30Volume => "collections.day30_volume"
  | AllTimeVolume => "collections.all_time_volume"
  end.

(** The fragments the handler pushes on [conditions]. Their values are
    named parameters ([$/community/], ...), read from the query object when
    the statement is run. *)
Inductive Cond : Type :=
| CommunityEq              (* collections.community = $/community/ *)
| IdIn                     (* collections.id IN ('$/collectionsIds:raw/') *)
| ContractEq               (* collections.contract = $/contract/ *)
| NameILike                (* collections.name ILIKE $/name/ *)
| SlugEq                   (* collections.slug = $/slug/ *)
| VolumeLt (c : Column).   (* collections.<c> < $/continuation/ *)

Definition cond_text (c : Cond) : string :=
  match c with
  | CommunityEq => "collections.community = $/community/"
  | IdIn => "collections.id IN ('$/collectionsIds:raw/')"
  | ContractEq => "collections.contract = $/contract/"
  | NameILike => "collections.name ILIKE $/name/"
  | SlugEq => "collections.slug = $/slug/"
  | VolumeLt col => column_name col ++ " < $/continuation/"
  end.

Inductive Direction : Type := Asc | Desc.
Inductive Nulls : Type := NullsFirst | NullsLast.

Record OrderKey : Type := {
  key_column : Column;
  key_direction : Direction;
  key_nulls : Nulls
}.

Definition key_text (k : OrderKey) : string :=
  column_name (key_column k)
  ++ match key_direction k with Asc => " ASC" | Desc => " DESC" end
  ++ match key_nulls k with NullsFirst => " NULLS FIRST" | NullsLast => " NULLS LAST" end.

(** [baseQuery] after the select list: the WHERE clause, the ORDER BY
    clause and the LIMIT, and whether the lateral join of the top bid is
    wrapped around it. *)
Record Statement : Type := {
  conditions : list Cond;
  orderBy : list OrderKey;
  topBidJoin : bool
}.

Fixpoint join (sep : string) (l : list string) : string :=
  match l with
  | [] => ""
  | [s] => s
  | s :: l' => s ++ sep ++ join sep l'
  end.

(** [" WHERE " + conditions.map((c) => `(${c})`).join(" AND ")] when there
    is a condition. *)
Definition where_text (st : Statement) : string :=
  match conditions st with
  | [] => ""
  | cs => " WHERE " ++ join " AND " (map (fun c => "(" ++ cond_text c ++ ")") cs)
  end.

(** The variable [orderBy] of the handler. *)
Definition order_text (st : Statement) : string :=
  match orderBy st with
  | [] => ""
  | ks => " ORDER BY " ++ join ", " (map key_text ks)
  end.

(** The text appended to the select list. *)
Definition render (st : Statement) : string :=
  where_text st ++ order_text st ++ " LIMIT $/limit/".

(** The query object the handler passes along with the text, after it
    replaced [contract] by its bytes and [name] by its pattern and added
    [collectionsIds]. *)
Record Params : Type := {
  community : option string;
  collectionsIds : option (list string);
  contract : option Buffer;
  name : option string;
  slug : option string;
  continuation : option string;
  limit : Z
}.

End Sql.

(** ** The store *)
Module Store.

Record Metadata : Type := {
  imageUrl : option string;
  bannerImageUrl : option string;
  discordUrl : option string;
  description : option string;
  externalUrl : option string;
  twitterUsername : option string
}.

(** A row of [collections], with the columns the statement reads. *)
Record Collection : Type := {
  id : string;
  slug : option string;
  name : option string;
  community : option string;
  metadata : Metadata;
  contract : Buffer;
  token_set_id : option string;
  token_count : Z;
  floor_sell_value : option Z;
  day1_volume : option Z;
  day7_volume : option Z;
  day30_volume : option Z;
  all_time_volume : option Z;
  day1_rank : option Z;
  day7_rank : option Z;
  day30_rank : option Z;
  all_time_rank : option Z;
  day1_volume_change : option JsNumber;
  day7_volume_change : option JsNumber;
  day30_volume_change : option JsNumber;
  day1_floor_sell_value : option Z;
  day7_floor_sell_value : option Z;
  day30_floor_sell_value : option Z
}.

Record Token : Type := {
  collection_id : option string;
  image : option string
}.

Record TokenSet : Type := {
  set_id : string;
  top_buy_value : option Z;
  top_buy_maker : option Buffer
}.

(** The data one request sees. *)
Record Snapshot : Type := {
  collections : list Collection;
  tokens : list Token;
  token_sets : list TokenSet
}.

(** A row of the result, as the driver hands it to the handler: text
    columns as strings, NUMERIC columns as their decimal text, the rest as
    numbers; a NULL as [null]. *)
Record Row : Type := {
  r_id : string;
  r_slug : option string;
  r_name : option string;
  r_image : option string;
  r_banner : option string;
  r_discord_url : option string;
  r_description : option string;
  r_external_url : option string;
  r_twitter_username : option string;
  r_contract : Buffer;
  r_token_set_id : option string;
  r_token_count : Z;
  r_sample_images : option (list (option string));
  r_floor_sell_value : JsVal;
  r_day1_volume : JsVal;
  r_day7_volume : JsVal;
  r_day30_volume : JsVal;
  r_all_time_volume : JsVal;
  r_day1_rank : option Z;
  r_day7_rank : option Z;
  r_day30_rank : option Z;
  r_all_time_rank : option Z;
  r_day1_volume_change : option JsNumber;
  r_day7_volume_change : option JsNumber;
  r_day30_volume_change : option JsNumber;
  r_day1_floor_sell_value : JsVal;
  r_day7_floor_sell_value : JsVal;
  r_day30_floor_sell_value : JsVal;
  r_top_buy_value : JsVal;
  r_top_buy_maker : option Buffer
}.

Definition volume (c : Sql.Column) (r : Collection) : option Z :=
  match c with
  | Sql.Day1Volume => day1_volume r
  | Sql.Day7Volume => day7_volume r
  | Sql.Day30Volume => day30_volume r
  | Sql.AllTimeVolume => all_time_volume r
  end.

(** *** Binding the parameters *)

(** A condition with its parameter in place. *)
Inductive Bound : Type :=
| BCommunityEq (v : string)
| BIdIn (ids : list string)
| BContractEq (b : Buffer)
| BNameILike (pattern : string)
| BSlugEq (v : string)
| BVolumeLt (c : Sql.Column) (z : Z).

Definition required {A : Type} (key : string) (o : option A) : Result A :=
  match o with
  | Some a => Ok a
  | None => Err (StoreError (MissingProperty key))
  end.

Definition bind_cond (p : Sql.Params) (c : Sql.Cond) : Result Bound :=
  match c with
  | Sql.CommunityEq => v <- required "community" (Sql.community p) ;; Ok (BCommunityEq v)
  | Sql.IdIn => ids <- required "collectionsIds" (Sql.collectionsIds p) ;; Ok (BIdIn ids)
  | Sql.ContractEq => b <- required "contract" (Sql.contract p) ;; Ok (BContractEq b)
  | Sql.NameILike => s <- required "name" (Sql.name p) ;; Ok (BNameILike s)
  | Sql.SlugEq => v <- required "slug" (Sql.slug p) ;; Ok (BSlugEq v)
  | Sql.VolumeLt col =>
      lit <- required "continuation" (Sql.continuation p) ;;
      match Numeric.numeric_in lit with
      | Some z => Ok (BVolumeLt col z)
      | None => Err (StoreError (InvalidNumericSyntax lit))
      end
  end.

Definition bind_limit (p : Sql.Params) : Result nat :=
  if Sql.limit p <? 0 then Err (StoreError NegativeLimit)
  else Ok (Z.to_nat (Sql.limit p)).

(** *** WHERE: three-valued conditions *)

(** LIKE on characters: [%] is any run of characters, [_] any one
    character, a backslash takes the next character literally. *)
Fixpoint like (pat s : list ascii) {struct pat} : bool :=
  match pat with
  | [] => match s with [] => true | _ :: _ => false end
  | "%"%char :: pat' =>
      (fix skip (s : list ascii) : bool :=
         (like pat' s || match s with [] => false | _ :: s' => skip s' end)%bool) s
  | "_"%char :: pat' =>
      match s with [] => false | _ :: s' => like pat' s' end
  | "\"%char :: c :: pat' =>
      match s with [] => false | d :: s' => (Ascii.eqb c d && like pat' s')%bool end
  | c :: pat' =>
      match s with [] => false | d :: s' => (Ascii.eqb c d && like pat' s')%bool end
  end.

(** ILIKE: LIKE regardless of case. *)
Definition ilike (s pattern : string) : bool :=
  like (list_ascii_of_string (toLowerCase pattern)) (list_ascii_of_string (toLowerCase s)).

(** The value of a condition on a row: [None] is SQL's unknown, which a
    comparison with a NULL column gives. *)
Definition holds (b : Bound) (r : Collection) : option bool :=
  match b with
  | BCommunityEq v => option_map (fun c => (c =? v)%string) (community r)
  | BIdIn ids => Some (existsb (fun i => (id r =? i)%string) ids)
  | BContractEq buf => Some (buffer_eqb (contract r) buf)
  | BNameILike pattern => option_map (fun n => ilike n pattern) (name r)
  | BSlugEq v => option_map (fun s => (s =? v)%string) (slug r)
  | BVolumeLt col z => option_map (fun v => v <? z) (volume col r)
  end.

(** SQL's AND. *)
Definition and3 (a b : option bool) : option bool :=
  match a, b with
  | Some false, _ => Some false
  | _, Some false => Some false
  | Some true, Some true => Some true
  | _, _ => None
  end.

Definition conjunction (bs : list Bound) (r : Collection) : option bool :=
  fold_right (fun b acc => and3 (holds b r) acc) (Some true) bs.

(** A row is selected when the WHERE clause is true, not when it is false
    or unknown. *)
Definition selected (bs : list Bound) (r : Collection) : bool :=
  match conjunction bs r with
  | Some true => true
  | _ => false
  end.

(** *** ORDER BY *)

Definition compare_key (k : Sql.OrderKey) (a b : Collection) : comparison :=
  match volume (Sql.key_column k) a, volume (Sql.key_column k) b with
  | None, None => Eq
  | None, Some _ =>
      match Sql.key_nulls k with Sql.NullsFirst => Lt | Sql.NullsLast => Gt end
  | Some _, None =>
      match Sql.key_nulls k with Sql.NullsFirst => Gt | Sql.NullsLast => Lt end
  | Some x, Some y =>
      match Sql.key_direction k with Sql.Asc => x ?= y | Sql.Desc => y ?= x end
  end.

Fixpoint compare_keys (ks : list Sql.OrderKey) (a b : Collection) : comparison :=
  match ks with
  | [] => Eq
  | k :: ks' =>
      match compare_key k a b with
      | Eq => compare_keys ks' a b
      | c => c
      end
  end.

(** [a] may come before [b]. *)
Definition precedes (ks : list Sql.OrderKey) (a b : Collection) : bool :=
  match compare_keys ks a b with
  | Gt => false
  | _ => true
  end.

Section Sort.
Variable A : Type.
Variable leb : A -> A -> bool.

Fixpoint insert (x : A) (l : list A) : list A :=
  match l with
  | [] => [x]
  | y :: l' => if leb x y then x :: l else y :: insert x l'
  end.

(** Rows that compare equal keep the order of the table: PostgreSQL leaves
    their order open, and a snapshot fixes one. *)
Fixpoint sort (l : list A) : list A :=
  match l with
  | [] => []
  | x :: l' => insert x (sort l')
  end.

End Sort.

(** *** The select list and the lateral join *)

(** [SELECT array(SELECT tokens.image FROM tokens
     WHERE tokens.collection_id = collections.id LIMIT 4)] *)
Definition sample_images (db : Snapshot) (r : Collection) : list (option string) :=
  firstn 4
    (map image
       (filter (fun t => match collection_id t with
                         | Some c => (c =? id r)%string
                         | None => false
                         end) (tokens db))).

(** [ORDER BY token_sets.top_buy_value DESC]: nulls first. *)
Definition bid_precedes (a b : TokenSet) : bool :=
  match top_buy_value a, top_buy_value b with
  | None, _ => true
  | Some _, None => false
  | Some x, Some y => y <=? x
  end.

(** [LEFT JOIN LATERAL (SELECT ... FROM token_sets
     WHERE token_sets.id = x.token_set_id
     ORDER BY token_sets.top_buy_value DESC LIMIT 1) y ON TRUE] *)
Definition top_bid (db : Snapshot) (r : Collection) : option TokenSet :=
  match token_set_id r with
  | None => None
  | Some ts =>
      hd_error (sort bid_precedes
                  (filter (fun s => (set_id s =? ts)%string) (token_sets db)))
  end.

Definition select (db : Snapshot) (withTopBid : bool) (r : Collection) : Row :=
  let y := if withTopBid then top_bid db r else None in
  {| r_id := id r;
     r_slug := slug r;
     r_name := name r;
     r_image := imageUrl (metadata r);
     r_banner := bannerImageUrl (metadata r);
     r_discord_url := discordUrl (metadata r);
     r_description := description (metadata r);
     r_external_url := externalUrl (metadata r);
     r_twitter_username := twitterUsername (metadata r);
     r_contract := contract r;
     r_token_set_id := token_set_id r;
     r_token_count := token_count r;
     r_sample_images := Some (sample_images db r);
     r_floor_sell_value := Numeric.deliver (floor_sell_value r);
     r_day1_volume := Numeric.deliver (day1_volume r);
     r_day7_volume := Numeric.deliver (day7_volume r);
     r_day30_volume := Numeric.deliver (day30_volume r);
     r_all_time_volume := Numeric.deliver (all_time_volume r);
     r_day1_rank := day1_rank r;
     r_day7_rank := day7_rank r;
     r_day30_rank := day30_rank r;
     r_all_time_rank := all_time_rank r;
     r_day1_volume_change := day1_volume_change r;
     r_day7_volume_change := day7_volume_change r;
     r_day30_volume_change := day30_volume_change r;
     r_day1_floor_sell_value := Numeric.deliver (day1_floor_sell_value r);
     r_day7_floor_sell_value := Numeric.deliver (day7_floor_sell_value r);
     r_day30_floor_sell_value := Numeric.deliver (day30_floor_sell_value r);
     r_top_buy_value :=
       match y with
       | Some s => Numeric.deliver (top_buy_value s)
       | None => JNull
       end;
     r_top_buy_maker :=
       match y with
       | Some s => top_buy_maker s
       | None => None
       end |}.

(** *** Running a statement *)

(** The rows of [x]: [FROM collections WHERE ... ORDER BY ... LIMIT ...]. *)
Definition rows (db : Snapshot) (st : Sql.Statement) (p : Sql.Params)
  : Result (list Collection) :=
  bs <- mapM (bind_cond p) (Sql.conditions st) ;;
  n <- bind_limit p ;;
  Ok (firstn n (sort (precedes (Sql.orderBy st))
                  (filter (selected bs) (collections db)))).

(** [edb.manyOrNone(baseQuery, query)] *)
Definition manyOrNone (db : Snapshot) (st : Sql.Statement) (p : Sql.Params)
  : Result (list Row) :=
  x <- rows db st p ;;
  Ok (map (select db (Sql.topBidJoin st)) x).

End Store.

(** ** The request and its schema *)

(** The query string of the request, key by key as it arrives, for the
    keys of the schema (the schema refuses a request with any other key).
    [limit] and [includeTopBid] are given as the number and the boolean
    that Joi's conversion reads from their text. *)
Module Http.

Record Query : Type := {
  collectionsSetId : option string;
  community : option string;
  contract : option string;
  name : option string;
  slug : option string;
  sortBy : option string;
  includeTopBid : option bool;
  limit : option Z;
  continuation : option string
}.

End Http.

(** [request.query] after validation: every key that has a default has a
    value. The handler's [switch] also takes a missing or unlisted [sortBy]. *)
Record Query : Type := {
  collectionsSetId : option string;
  community : option string;
  contract : option string;
  name : option string;
  slug : option string;
  sortBy : option string;
  includeTopBid : bool;
  limit : Z;
  continuation : option string
}.

(** [Joi.string()]: an empty string is refused. *)
Definition joi_string (key : string) (v : option string) : Result (option string) :=
  match v with
  | None => Ok None
  | Some s =>
      if (s =? "")%string then Err (ValidationError key "is not allowed to be empty")
      else Ok (Some s)
  end.

(** [Joi.string().lowercase()]: the value is converted to lower case. *)
Definition joi_lowercase (key : string) (v : option string) : Result (option string) :=
  s <- joi_string key v ;; Ok (option_map toLowerCase s).

(** [Joi.string().lowercase().pattern(/^0x[a-fA-F0-9]{40}$/)] *)
Definition joi_address (key : string) (v : option string) : Result (option string) :=
  s <- joi_lowercase key v ;;
  match s with
  | None => Ok None
  | Some a =>
      if is_address a then Ok (Some a)
      else Err (ValidationError key "fails to match the required pattern")
  end.

Definition sort_selectors : list string :=
  ["1DayVolume"; "7DayVolume"; "30DayVolume"; "allTimeVolume"].

(** [Joi.string().valid(...).default("allTimeVolume")] *)
Definition joi_sortBy (v : option string) : Result (option string) :=
  match v with
  | None => Ok (Some "allTimeVolume")
  | Some s =>
      if existsb (String.eqb s) sort_selectors then Ok (Some s)
      else Err (ValidationError "sortBy" "must be one of the sort selectors")
  end.

(** [Joi.number().integer().min(1).max(20).default(20)] *)
Definition joi_limit (v : option Z) : Result Z :=
  match v with
  | None => Ok 20
  | Some n =>
      if n <? 1 then Err (ValidationError "limit" "must be greater than or equal to 1")
      else if 20 <? n then Err (ValidationError "limit" "must be less than or equal to 20")
      else Ok n
  end.

Definition is_some {A : Type} (o : option A) : bool :=
  match o with Some _ => true | None => false end.

(** [.or("collectionsSetId", "community", "contract", "name", "sortBy")]:
    Joi checks the peers on the object it has validated key by key, where
    a key with a default already has its value. *)
Definition joi_or (q : Query) : Result Query :=
  if (is_some (collectionsSetId q) || is_some (community q) || is_some (contract q)
      || is_some (name q) || is_some (sortBy q))%bool
  then Ok q
  else Err (ValidationError "value" "must contain at least one of the peers").

(** The keys of the schema, in its order. *)
Definition validate_keys (raw : Http.Query) : Result Query :=
  collectionsSetId <- joi_lowercase "collectionsSetId" (Http.collectionsSetId raw) ;;
  community <- joi_lowercase "community" (Http.community raw) ;;
  contract <- joi_address "contract" (Http.contract raw) ;;
  name <- joi_lowercase "name" (Http.name raw) ;;
  slug <- joi_lowercase "slug" (Http.slug raw) ;;
  sortBy <- joi_sortBy (Http.sortBy raw) ;;
  limit <- joi_limit (Http.limit raw) ;;
  continuation <- joi_string "continuation" (Http.continuation raw) ;;
  Ok {| collectionsSetId := collectionsSetId;
        community := community;
        contract := contract;
        name := name;
        slug := slug;
        sortBy := sortBy;
        includeTopBid := match Http.includeTopBid raw with Some b => b | None => false end;
        limit := limit;
        continuation := continuation |}.

(** [validate.query] of the route. *)
Definition validate (raw : Http.Query) : Result Query :=
  query <- validate_keys raw ;;
  joi_or query.

(** ** The response *)
Module Response.

Record PerWindow (A : Type) : Type := {
  w1day : A;
  w7day : A;
  w30day : A;
  allTime : A
}.

Record PerDays (A : Type) : Type := {
  d1day : A;
  d7day : A;
  d30day : A
}.

Record Collection : Type := {
  id : string;
  slug : option string;
  name : option string;
  image : option string;
  banner : option string;
  discordUrl : option string;
  externalUrl : option string;
  twitterUsername : option string;
  description : option string;
  sampleImages : list (option string);
  tokenCount : string;
  primaryContract : string;
  tokenSetId : option string;
  floorAskPrice : option JsNumber;
  rank : PerWindow (option Z);
  volume : PerWindow (option JsNumber);
  volumeChange : PerDays (option JsNumber);
  floorSale : PerDays (option JsNumber);
  (* set only when [includeTopBid] *)
  topBidValue : option (option JsNumber);
  topBidMaker : option (option string)
}.

Record Page : Type := {
  collections : list Collection;
  continuation : JsVal
}.

End Response.

(** ** What the handler imports *)

(** [formatEth], [fromBuffer] and [toBuffer] of [@/common/utils] and
    [CollectionSets.getCollectionsIds] of [@/models/collection-sets]. *)
Record Externals : Type := {
  formatEth : JsVal -> JsNumber;
  fromBuffer : Buffer -> string;
  toBuffer : string -> Buffer;
  getCollectionsIds : string -> Result (list string)
}.

(** ** The handler *)
Section Handler.

Variable ext : Externals.

(** The query object as the parameters of the statement, before the
    handler changes it. [contract] is bound only after the handler has
    replaced it by its bytes. *)
Definition params_of (query : Query) : Sql.Params :=
  {| Sql.community := community query;
     Sql.collectionsIds := None;
     Sql.contract := None;
     Sql.name := name query;
     Sql.slug := slug query;
     Sql.continuation := continuation query;
     Sql.limit := limit query |}.

(** [query.collectionsIds = _.join(collectionsIds, "','")], spliced raw
    between quotes: the list of the identifiers as literals. *)
Definition set_collectionsIds (ids : list string) (p : Sql.Params) : Sql.Params :=
  {| Sql.community := Sql.community p;
     Sql.collectionsIds := Some ids;
     Sql.contract := Sql.contract p;
     Sql.name := Sql.name p;
     Sql.slug := Sql.slug p;
     Sql.continuation := Sql.continuation p;
     Sql.limit := Sql.limit p |}.

(** [query.contract = toBuffer(query.contract)] *)
Definition set_contract (b : Buffer) (p : Sql.Params) : Sql.Params :=
  {| Sql.community := Sql.community p;
     Sql.collectionsIds := Sql.collectionsIds p;
     Sql.contract := Some b;
     Sql.name := Sql.name p;
     Sql.slug := Sql.slug p;
     Sql.continuation := Sql.continuation p;
     Sql.limit := Sql.limit p |}.

(** [query.name = `%${query.name}%`] *)
Definition set_name (s : string) (p : Sql.Params) : Sql.Params :=
  {| Sql.community := Sql.community p;
     Sql.collectionsIds := Sql.collectionsIds p;
     Sql.contract := Sql.contract p;
     Sql.name := Some s;
     Sql.slug := Sql.slug p;
     Sql.continuation := Sql.continuation p;
     Sql.limit := Sql.limit p |}.

(** [conditions] and the query object, threaded through the handler. *)
Definition Building : Type := (list Sql.Cond * Sql.Params)%type.

Definition push (c : Sql.Cond) (b : Building) : Building :=
  ((fst b ++ [c])%list, snd b).

Definition update (f : Sql.Params -> Sql.Params) (b : Building) : Building :=
  (fst b, f (snd b)).

(** [if (query.community) { ... }] *)
Definition filter_community (query : Query) (b : Building) : Building :=
  if present (community query) then push Sql.CommunityEq b else b.

(** [if (query.collectionsSetId) { ... }] *)
Definition filter_collectionsSet (query : Query) (b : Building) : Result Building :=
  match collectionsSetId query with
  | Some setId =>
      if present (Some setId) then
        collectionsIds <- getCollectionsIds ext setId ;;
        match collectionsIds with
        | [] => Ok b
        | _ :: _ => Ok (push Sql.IdIn (update (set_collectionsIds collectionsIds) b))
        end
      else Ok b
  | None => Ok b
  end.

(** [if (query.contract) { ... }] *)
Definition filter_contract (query : Query) (b : Building) : Building :=
  match contract query with
  | Some c =>
      if present (Some c) then push Sql.ContractEq (update (set_contract (toBuffer ext c)) b)
      else b
  | None => b
  end.

(** [if (query.name) { ... }] *)
Definition filter_name (query : Query) (b : Building) : Building :=
  match name query with
  | Some n =>
      if present (Some n) then push Sql.NameILike (update (set_name ("%" ++ n ++ "%")) b)
      else b
  | None => b
  end.

(** [if (query.slug) { ... }] *)
Definition filter_slug (query : Query) (b : Building) : Building :=
  if present (slug query) then push Sql.SlugEq b else b.

(** The section [// Filters]. *)
Definition filters (query : Query) : Result Building :=
  let b := ([], params_of query) in
  let b := filter_community query b in
  b <- filter_collectionsSet query b ;;
  let b := filter_contract query b in
  let b := filter_name query b in
  let b := filter_slug query b in
  Ok b.

Definition descNullsLast (c : Sql.Column) : list Sql.OrderKey :=
  [{| Sql.key_column := c; Sql.key_direction := Sql.Desc; Sql.key_nulls := Sql.NullsLast |}].

(** [if (query.continuation) { conditions.push(`<column> < $/continuation/`) }] *)
Definition resume (query : Query) (c : Sql.Column) (conditions : list Sql.Cond)
  : list Sql.Cond :=
  if present (continuation query) then (conditions ++ [Sql.VolumeLt c])%list else conditions.

(** The section [// Sorting]: the [switch] on [query.sortBy], which gives
    the conditions and [orderBy]. *)
Definition sorting (query : Query) (conditions : list Sql.Cond)
  : list Sql.Cond * list Sql.OrderKey :=
  let orderBy := descNullsLast Sql.AllTimeVolume in
  match sortBy query with
  | Some s =>
      if (s =? "1DayVolume")%string then
        (resume query Sql.Day1Volume conditions, descNullsLast Sql.Day1Volume)
      else if (s =? "7DayVolume")%string then
        (resume query Sql.Day7Volume conditions, descNullsLast Sql.Day7Volume)
      else if (s =? "30DayVolume")%string then
        (resume query Sql.Day30Volume conditions, descNullsLast Sql.Day30Volume)
      else (* "allTimeVolume" and default *)
        (resume query Sql.AllTimeVolume conditions, orderBy)
  | None => (resume query Sql.AllTimeVolume conditions, orderBy)
  end.

(** The statement and its parameters, as passed to [edb.manyOrNone]. *)
Definition compose (query : Query) : Result (Sql.Statement * Sql.Params) :=
  b <- filters query ;;
  let (conditions, orderBy) := sorting query (fst b) in
  Ok ({| Sql.conditions := conditions;
         Sql.orderBy := orderBy;
         Sql.topBidJoin := includeTopBid query |}, snd b).

(** [v ? formatEth(v) : null] *)
Definition eth (v : JsVal) : option JsNumber :=
  if truthy v then Some (formatEth ext v) else None.

(** [result.map((r) => { ... })] *)
Definition project (query : Query) (r : Store.Row) : Response.Collection :=
  {| Response.id := Store.r_id r;
     Response.slug := Store.r_slug r;
     Response.name := Store.r_name r;
     Response.image :=
       if present (Store.r_image r) then Store.r_image r
       else match Store.r_sample_images r with
            | Some (first :: _) => first
            | _ => None
            end;
     Response.banner := Store.r_banner r;
     Response.discordUrl := Store.r_discord_url r;
     Response.externalUrl := Store.r_external_url r;
     Response.twitterUsername := Store.r_twitter_username r;
     Response.description := Store.r_description r;
     Response.sampleImages :=
       match Store.r_sample_images r with Some l => l | None => [] end;
     Response.tokenCount := Numeric.numeric_out (Store.r_token_count r);
     Response.primaryContract := fromBuffer ext (Store.r_contract r);
     Response.tokenSetId := Store.r_token_set_id r;
     Response.floorAskPrice := eth (Store.r_floor_sell_value r);
     Response.rank :=
       {| Response.w1day := Store.r_day1_rank r;
          Response.w7day := Store.r_day7_rank r;
          Response.w30day := Store.r_day30_rank r;
          Response.allTime := Store.r_all_time_rank r |};
     Response.volume :=
       {| Response.w1day := eth (Store.r_day1_volume r);
          Response.w7day := eth (Store.r_day7_volume r);
          Response.w30day := eth (Store.r_day30_volume r);
          Response.allTime := eth (Store.r_all_time_volume r) |};
     Response.volumeChange :=
       {| Response.d1day := Store.r_day1_volume_change r;
          Response.d7day := Store.r_day7_volume_change r;
          Response.d30day := Store.r_day30_volume_change r |};
     Response.floorSale :=
       {| Response.d1day := eth (Store.r_day1_floor_sell_value r);
          Response.d7day := eth (Store.r_day7_floor_sell_value r);
          Response.d30day := eth (Store.r_day30_floor_sell_value r) |};
     Response.topBidValue :=
       if includeTopBid query then Some (eth (Store.r_top_buy_value r)) else None;
     Response.topBidMaker :=
       if includeTopBid query
       then Some (option_map (fromBuffer ext) (Store.r_top_buy_maker r))
       else None |}.

(** The [switch] of the section [// Set the continuation]. *)
Definition cursor_of (query : Query) (lastCollection : Store.Row) : JsVal :=
  match sortBy query with
  | Some s =>
      if (s =? "1DayVolume")%string then Store.r_day1_volume lastCollection
      else if (s =? "7DayVolume")%string then Store.r_day7_volume lastCollection
      else if (s =? "30DayVolume")%string then Store.r_day30_volume lastCollection
      else Store.r_all_time_volume lastCollection
  | None => Store.r_all_time_volume lastCollection
  end.

(** [_.last(result)] *)
Definition last_row (result : list Store.Row) : option Store.Row :=
  hd_error (rev result).

Definition next_continuation (query : Query) (result : list Store.Row) : JsVal :=
  if Z.of_nat (List.length result) =? limit query then
    match last_row result with
    | Some lastCollection => cursor_of query lastCollection
    | None => JNull
    end
  else JNull.

Definition handler (db : Store.Snapshot) (query : Query) : Result Response.Page :=
  sp <- compose query ;;
  result <- Store.manyOrNone db (fst sp) (snd sp) ;;
  Ok {| Response.collections := map (project query) result;
        Response.continuation := next_continuation query result |}.

(** The operation the route exposes: the schema, then the handler. *)
Definition listCollections (db : Store.Snapshot) (raw : Http.Query) : Result Response.Page :=
  query <- validate raw ;;
  handler db query.

End Handler.

(** ** A client that follows the continuation *)

(** The continuation of a page as the [continuation] of the next request. *)
Definition token (c : JsVal) : option string :=
  match c with
  | JNull => None
  | JStr s => Some s
  | JNum n => Some (Numeric.numeric_out n)
  end.

Definition with_continuation (raw : Http.Query) (c : option string) : Http.Query :=
  {| Http.collectionsSetId := Http.collectionsSetId raw;
     Http.community := Http.community raw;
     Http.contract := Http.contract raw;
     Http.name := Http.name raw;
     Http.slug := Http.slug raw;
     Http.sortBy := Http.sortBy raw;
     Http.includeTopBid := Http.includeTopBid raw;
     Http.limit := Http.limit raw;
     Http.continuation := c |}.

(** The pages obtained by sending the request and then, as long as the
    page has a continuation, the same request with that continuation, all
    against one snapshot. [None]: more than [fuel] requests were needed. *)
Fixpoint paginate (ext : Externals) (db : Store.Snapshot) (fuel : nat) (raw : Http.Query)
  : option (Result (list Response.Page)) :=
  match fuel with
  | O => None
  | S fuel' =>
      match listCollections ext db raw with
      | Err e => Some (Err e)
      | Ok page =>
          match token (Response.continuation page) with
          | None => Some (Ok [page])
          | Some c =>
              match paginate ext db fuel' (with_continuation raw (Some c)) with
              | None => None
              | Some (Err e) => Some (Err e)
              | Some (Ok pages) => Some (Ok (page :: pages))
              end
          end
      end
  end.

Definition all_collections (pages : list Response.Page) : list Response.Collection :=
  flat_map Response.collections pages.

(** The cursor values at the page boundaries. *)
Definition cursors (pages : list Response.Page) : list string :=
  flat_map (fun p => match token (Response.continuation p) with
                     | Some c => [c]
                     | None => []
                     end) pages.

(** The volume column behind a sort selector; all-time volume is the
    default. *)
Definition sort_column (sortBy : option string) : Sql.Column :=
  match sortBy with
  | Some s =>
      if (s =? "1DayVolume")%string then Sql.Day1Volume
      else if (s =? "7DayVolume")%string then Sql.Day7Volume
      else if (s =? "30DayVolume")%string then Sql.Day30Volume
      else Sql.AllTimeVolume
  | None => Sql.AllTimeVolume
  end.

(** The same query without its collection-set filter. *)
Definition without_collectionsSet (query : Query) : Query :=
  {| collectionsSetId := None;
     community := community query;
     contract := contract query;
     name := name query;
     slug := slug query;
     sortBy := sortBy query;
     includeTopBid := includeTopBid query;
     limit := limit query;
     continuation := continuation query |}.

(** The rows of the snapshot that the filters of a request select: the
    WHERE clause of the request without a continuation. *)
Definition matching (ext : Externals) (db : Store.Snapshot) (query : Query)
  : Result (list Store.Collection) :=
  b <- filters ext query ;;
  bs <- mapM (Store.bind_cond (snd b)) (fst b) ;;
  Ok (filter (Store.selected bs) (Store.collections db)).

(** ** Sample data *)
Module Sample.

Definition hex_value (c : ascii) : nat :=
  let n := nat_of_ascii c in
  if Nat.leb 97 n then n - 87 else if Nat.leb 65 n then n - 55 else n - 48.

Fixpoint hex_bytes (s : string) : Buffer :=
  match s with
  | String h (String l s') =>
      match Byte.of_nat (16 * hex_value h + hex_value l) with
      | Some b => b :: hex_bytes s'
      | None => hex_bytes s'
      end
  | _ => []
  end.

Definition hex_digit (n : nat) : ascii :=
  if Nat.ltb n 10 then ascii_of_nat (48 + n) else ascii_of_nat (87 + n).

Fixpoint bytes_hex (b : Buffer) : string :=
  match b with
  | [] => ""
  | x :: b' =>
      let n := Byte.to_nat x in
      String (hex_digit (Nat.div n 16)) (String (hex_digit (Nat.modulo n 16)) (bytes_hex b'))
  end.

(** Wei as ether, exactly. *)
Definition wei (v : JsVal) : JsNumber :=
  match v with
  | JStr s => match Numeric.numeric_in s with Some z => z # (10 ^ 18) | None => 0%Q end
  | JNum n => n # (10 ^ 18)
  | JNull => 0%Q
  end.

Definition sets (setId : string) : Result (list string) :=
  if (setId =? "empty")%string then Ok []
  else if (setId =? "blue-chips")%string then Ok ["c1"; "c3"]
  else Err (ResolverError setId).

Definition ext : Externals :=
  {| formatEth := wei;
     fromBuffer := fun b => "0x" ++ bytes_hex b;
     toBuffer := fun s => hex_bytes (String.substring 2 (String.length s - 2) s);
     getCollectionsIds := sets |}.

Definition abc : string := "0xabc0000000000000000000000000000000000abc".
Definition def : string := "0xdef0000000000000000000000000000000000def".

Definition no_metadata : Store.Metadata :=
  {| Store.imageUrl := None;
     Store.bannerImageUrl := None;
     Store.discordUrl := None;
     Store.description := None;
     Store.externalUrl := None;
     Store.twitterUsername := None |}.

(** A collection of [contract] whose four volumes are [v]. *)
Definition collection (i : string) (contract : string) (v : option Z) : Store.Collection :=
  {| Store.id := i;
     Store.slug := Some i;
     Store.name := Some i;
     Store.community := Some "artblocks";
     Store.metadata := no_metadata;
     Store.contract := toBuffer ext contract;
     Store.token_set_id := None;
     Store.token_count := 1;
     Store.floor_sell_value := None;
     Store.day1_volume := v;
     Store.day7_volume := v;
     Store.day30_volume := v;
     Store.all_time_volume := v;
     Store.day1_rank := None;
     Store.day7_rank := None;
     Store.day30_rank := None;
     Store.all_time_rank := None;
     Store.day1_volume_change := None;
     Store.day7_volume_change := None;
     Store.day30_volume_change := None;
     Store.day1_floor_sell_value := None;
     Store.day7_floor_sell_value := None;
     Store.day30_floor_sell_value := None |}.

Definition snapshot (cs : list Store.Collection) : Store.Snapshot :=
  {| Store.collections := cs; Store.tokens := []; Store.token_sets := [] |}.


Definition by_contract (c : string) (sortBy : string) (limit : Z) : Http.Query :=
  {| Http.collectionsSetId := None;
     Http.community := None;
     Http.contract := Some c;
     Http.name := None;
     Http.slug := None;
     Http.sortBy := Some sortBy;
     Http.includeTopBid := None;
     Http.limit := Some limit;
     Http.continuation := None |}.

(** Three collections of one contract, stored in no particular order,
    and one of another contract. *)
Definition three : Store.Snapshot :=
  snapshot [collection "c30" abc (Some 30); collection "other" def (Some 40);
            collection "c10" abc (Some 10); collection "c50" abc (Some 50)].

(** The validated form of [by_contract] for a contract in lower case. *)
Definition contract_query (c : string) (sortBy : string) (limit : Z) : Query :=
  {| collectionsSetId := None;
     community := None;
     contract := Some c;
     name := None;
     slug := None;
     sortBy := Some sortBy;
     includeTopBid := false;
     limit := limit;
     continuation := None |}.

Definition c50 : Store.Collection := collection "c50" abc (Some 50).
Definition c30 : Store.Collection := collection "c30" abc (Some 30).
Definition c10 : Store.Collection := collection "c10" abc (Some 10).
Definition unsold : Store.Collection := collection "unsold" abc None.


(** One collection, without a volume. *)
Definition only_unsold : Store.Snapshot := snapshot [unsold].

(** A request for a collection set. *)
Definition set_query (setId : string) : Query :=
  {| collectionsSetId := Some setId;
     community := Some "artblocks";
     contract := None;
     name := None;
     slug := None;
     sortBy := Some "allTimeVolume";
     includeTopBid := false;
     limit := 20;
     continuation := None |}.

End Sample.

(** ** Notions used in the statements *)

(** Descending with nulls last, on one column. *)
Definition desc_nulls_last (a b : option Z) : bool :=
  match a, b with
  | Some x, Some y => y <=? x
  | Some _, None => true
  | None, Some _ => false
  | None, None => true
  end.




(** A validated query with another continuation. *)
Definition with_cursor (query : Query) (c : option string) : Query :=
  {| collectionsSetId := collectionsSetId query;
     community := community query;
     contract := contract query;
     name := name query;
     slug := slug query;
     sortBy := sortBy query;
     includeTopBid := includeTopBid query;
     limit := limit query;
     continuation := c |}.

Definition cursor_param (p : Sql.Params) (c : option string) : Sql.Params :=
  {| Sql.community := Sql.community p;
     Sql.collectionsIds := Sql.collectionsIds p;
     Sql.contract := Sql.contract p;
     Sql.name := Sql.name p;
     Sql.slug := Sql.slug p;
     Sql.continuation := c;
     Sql.limit := Sql.limit p |}.

(** *** Pages of stored rows

    What a walk through the pages amounts to on the rows that the filters
    select: the rows below the cursor, ordered, cut at the limit, and the
    value of the last row of a full page as the next cursor. *)

Definition below (col : Sql.Column) (c : option Z) (r : Store.Collection) : bool :=
  match c with
  | None => true
  | Some z =>
      match Store.volume col r with
      | Some v => v <? z
      | None => false
      end
  end.

Definition page_rows (col : Sql.Column) (n : nat) (rows : list Store.Collection)
    (c : option Z) : list Store.Collection :=
  firstn n (Store.sort (Store.precedes (descNullsLast col)) (filter (below col c) rows)).

Definition page_cursor (col : Sql.Column) (n : nat) (page : list Store.Collection)
  : option Z :=
  if Nat.eqb (List.length page) n then
    match hd_error (rev page) with
    | Some r => Store.volume col r
    | None => None
    end
  else None.

Fixpoint walk (col : Sql.Column) (n : nat) (rows : list Store.Collection)
    (fuel : nat) (c : option Z) : option (list (list Store.Collection)) :=
  match fuel with
  | O => None
  | S fuel' =>
      let page := page_rows col n rows c in
      match page_cursor col n page with
      | None => Some [page]
      | Some z => option_map (cons page) (walk col n rows fuel' (Some z))
      end
  end.

(** The page of the response that shows the stored rows [page]. *)
Definition view (ext : Externals) (db : Store.Snapshot) (q : Query)
    (page : list Store.Collection) : Response.Page :=
  {| Response.collections :=
       map (fun r => project ext q (Store.select db (includeTopBid q) r)) page;
     Response.continuation :=
       Numeric.deliver
         (page_cursor (sort_column (sortBy q)) (Z.to_nat (limit q)) page) |}.

(** The cursor values at the boundaries of pages of stored rows. *)
Definition boundaries (col : Sql.Column) (n : nat) (pages : list (list Store.Collection))
  : list Z :=
  flat_map (fun page => match page_cursor col n page with
                        | Some z => [z]
                        | None => []
                        end) pages.

(** Whether a three-valued condition is true. *)
Definition is_true3 (o : option bool) : bool :=
  match o with
  | Some true => true
  | _ => false
  end.


(** A page on the sort values of its rows. *)
Definition key_below (c : option Z) (k : option Z) : bool :=
  match c with
  | None => true
  | Some z =>
      match k with
      | Some v => v <? z
      | None => false
      end
  end.

Definition keys_page (n : nat) (keys : list (option Z)) (c : option Z) : list (option Z) :=
  firstn n (Store.sort desc_nulls_last (filter (key_below c) keys)).

(** *** The cursor of a request *)

(** What the continuation of a query amounts to for the statement: no
    resume condition, a resume condition with a number, or one with a bound
    that the store cannot read. *)
Inductive Cursor : Type :=
| NoCursor
| Resume (z : Z)
| Malformed (tok : string).

Definition read_cursor (q : Query) : Cursor :=
  match continuation q with
  | Some tok =>
      if present (Some tok) then
        match Numeric.numeric_in tok with
        | Some z => Resume z
        | None => Malformed tok
        end
      else NoCursor
  | None => NoCursor
  end.

Definition resume_value (c : Cursor) : option Z :=
  match c with
  | Resume z => Some z
  | _ => None
  end.

(** *** The schema, key by key *)

(** [Joi.string()] takes the value: it is absent or not empty. *)
Definition not_empty (o : option string) : bool :=
  match o with
  | Some s => negb (s =? "")%string
  | None => true
  end.

(** The rules of the keys of the schema on a request. *)
Definition keys_conform (raw : Http.Query) : bool :=
  (not_empty (Http.collectionsSetId raw)
   && not_empty (Http.community raw)
   && match Http.contract raw with
      | Some c => is_address (toLowerCase c)
      | None => true
      end
   && not_empty (Http.name raw)
   && not_empty (Http.slug raw)
   && match Http.sortBy raw with
      | Some s => existsb (String.eqb s) sort_selectors
      | None => true
      end
   && match Http.limit raw with
      | Some n => (1 <=? n) && (n <=? 20)
      | None => true
      end
   && not_empty (Http.continuation raw))%bool.

(** A validated query sent again as a request. *)
Definition as_request (q : Query) : Http.Query :=
  {| Http.collectionsSetId := collectionsSetId q;
     Http.community := community q;
     Http.contract := contract q;
     Http.name := name q;
     Http.slug := slug q;
     Http.sortBy := sortBy q;
     Http.includeTopBid := Some (includeTopBid q);
     Http.limit := Some (limit q);
     Http.continuation := continuation q |}.

(** *** The schema of the response

    [response.schema] of the route. Its [failAction] logs and throws: a
    page that does not conform is not sent. The keys that take any string,
    null included ([slug], [name], [image], [banner], [discordUrl],
    [externalUrl], [twitterUsername], [description], the items of
    [sampleImages]) and those that take any number or null ([floorAskPrice],
    [topBidValue], [rank], [volume], [volumeChange], [floorSale]) refuse no
    value of their type. *)

(** [Joi.string()] *)
Definition joi_text (s : string) : bool := negb (s =? "")%string.

(** [Joi.string().allow(null)] *)
Definition joi_text_or_null (o : option string) : bool :=
  match o with
  | Some s => joi_text s
  | None => true
  end.

(** [Joi.string().lowercase().pattern(/^0x[a-fA-F0-9]{40}$/)] *)
Definition joi_address_text (s : string) : bool := is_address (toLowerCase s).

Definition collection_conforms (c : Response.Collection) : bool :=
  (joi_text (Response.id c)
   && joi_text (Response.tokenCount c)
   && joi_text_or_null (Response.tokenSetId c)
   && joi_address_text (Response.primaryContract c)
   && match Response.topBidMaker c with
      | Some (Some maker) => joi_address_text maker
      | _ => true
      end)%bool.

(** [continuation: Joi.string().allow(null)] *)
Definition continuation_conforms (c : JsVal) : bool :=
  match c with
  | JNull => true
  | JStr s => joi_text s
  | JNum _ => false
  end.

Definition response_conforms (page : Response.Page) : bool :=
  (forallb collection_conforms (Response.collections page)
   && continuation_conforms (Response.continuation page))%bool.

(** The stored row behind a collection of the response conforms. *)
Definition row_conforms (ext : Externals) (db : Store.Snapshot) (withTopBid : bool)
    (r : Store.Collection) : bool :=
  (negb (Store.id r =? "")%string
   && match Store.token_set_id r with
      | Some s => negb (s =? "")%string
      | None => true
      end
   && is_address (toLowerCase (fromBuffer ext (Store.contract r)))
   && match (if withTopBid then Store.top_bid db r else None) with
      | Some s =>
          match Store.top_buy_maker s with
          | Some maker => is_address (toLowerCase (fromBuffer ext maker))
          | None => true
          end
      | None => true
      end)%bool.

(** *** A snapshot with token sets *)





(** * Properties *)

(** ** Numeric text *)

Lemma to_int_not_nil (z : Z) :
  Z.to_int z <> Decimal.Pos Decimal.Nil /\ Z.to_int z <> Decimal.Neg Decimal.Nil.
Proof.
  destruct z as [|p|p]; simpl; split; try discriminate; intros H;
    injection H as H; exact (DecimalPos.Unsigned.to_uint_nonnil p H).
Qed.

(** The text of a number reads back as that number. *)
Lemma numeric_in_out (z : Z) : Numeric.numeric_in (Numeric.numeric_out z) = Some z.
Proof.
  unfold Numeric.numeric_in, Numeric.numeric_out.
  destruct (to_int_not_nil z) as [Hp Hn].
  rewrite (NilZero.isi _ Hp Hn). simpl. now rewrite DecimalZ.of_to.
Qed.

Lemma numeric_out_not_empty (z : Z) : Numeric.numeric_out z <> "".
Proof.
  intros H. pose proof (numeric_in_out z) as R. rewrite H in R. discriminate R.
Qed.

(** A delivered NUMERIC value passes a truth test exactly when it is not
    NULL: its text is never the empty string. *)
Lemma truthy_deliver (v : option Z) : truthy (Numeric.deliver v) = is_some v.
Proof.
  destruct v as [z|]; simpl; [|reflexivity].
  destruct (String.eqb_spec (Numeric.numeric_out z) ""); [|reflexivity].
  now destruct (numeric_out_not_empty z).
Qed.

Lemma token_deliver (v : option Z) :
  token (Numeric.deliver v) = option_map Numeric.numeric_out v.
Proof. now destruct v. Qed.

(** ** The error monad *)

Lemma bind_ok {A B : Type} (m : Result A) (k : A -> Result B) (b : B) :
  bind m k = Ok b -> exists a, m = Ok a /\ k a = Ok b.
Proof. destruct m as [a|e]; simpl; [eauto | discriminate]. Qed.

Lemma mapM_ok_length {A B : Type} (f : A -> Result B) (l : list A) (bs : list B) :
  mapM f l = Ok bs -> List.length bs = List.length l.
Proof.
  revert bs; induction l as [|a l IH]; simpl; intros bs H.
  - now injection H as <-.
  - apply bind_ok in H as (b & _ & H). apply bind_ok in H as (bs' & Hl & H).
    injection H as <-. simpl. f_equal. now apply IH.
Qed.

Lemma mapM_app {A B : Type} (f : A -> Result B) (l1 l2 : list A) :
  mapM f (l1 ++ l2)%list =
  (bs1 <- mapM f l1 ;; bs2 <- mapM f l2 ;; Ok (bs1 ++ bs2)%list).
Proof.
  induction l1 as [|a l1 IH]; simpl.
  - now destruct (mapM f l2).
  - destruct (f a); simpl; [|reflexivity]. rewrite IH.
    destruct (mapM f l1); simpl; [|reflexivity]. now destruct (mapM f l2).
Qed.

(** ** The composed statement *)

Lemma sorting_spec (q : Query) (conds : list Sql.Cond) :
  sorting q conds =
  (resume q (sort_column (sortBy q)) conds, descNullsLast (sort_column (sortBy q))).
Proof.
  unfold sorting, sort_column. destruct (sortBy q) as [s|]; [|reflexivity].
  destruct (s =? "1DayVolume")%string; [reflexivity|].
  destruct (s =? "7DayVolume")%string; [reflexivity|].
  destruct (s =? "30DayVolume")%string; reflexivity.
Qed.

Lemma cursor_of_spec (q : Query) (db : Store.Snapshot) (b : bool) (r : Store.Collection) :
  cursor_of q (Store.select db b r) =
  Numeric.deliver (Store.volume (sort_column (sortBy q)) r).
Proof.
  unfold cursor_of, sort_column. destruct (sortBy q) as [s|]; [|reflexivity].
  destruct (s =? "1DayVolume")%string; [reflexivity|].
  destruct (s =? "7DayVolume")%string; [reflexivity|].
  destruct (s =? "30DayVolume")%string; reflexivity.
Qed.

Lemma holds_volume_lt (col : Sql.Column) (c : Z) (r : Store.Collection) :
  Store.holds (Store.BVolumeLt col c) r = Some true <->
  exists v, Store.volume col r = Some v /\ v < c.
Proof.
  simpl. destruct (Store.volume col r) as [v|]; simpl; split.
  - intros [= H]. exists v. split; [reflexivity | now apply Z.ltb_lt].
  - intros (v' & [= <-] & H). f_equal. now apply Z.ltb_lt.
  - discriminate.
  - now intros (v & [=] & _).
Qed.

Lemma precedes_descNullsLast (col : Sql.Column) (a b : Store.Collection) :
  Store.precedes (descNullsLast col) a b =
  desc_nulls_last (Store.volume col a) (Store.volume col b).
Proof.
  unfold Store.precedes, descNullsLast, Store.compare_keys, Store.compare_key. simpl.
  destruct (Store.volume col a) as [x|], (Store.volume col b) as [y|]; simpl; try reflexivity.
  unfold Z.leb. now destruct (y ?= x).
Qed.

(** What the filters leave in the query object. *)
Lemma filters_params (ext : Externals) (q : Query) (b : Building) :
  filters ext q = Ok b ->
  Sql.continuation (snd b) = continuation q /\ Sql.limit (snd b) = limit q.
Proof.
  unfold filters. intros H. apply bind_ok in H as (b1 & H1 & H). injection H as <-.
  assert (P : Sql.continuation (snd b1) = continuation q /\ Sql.limit (snd b1) = limit q).
  { revert H1. unfold filter_collectionsSet, filter_community.
    destruct (collectionsSetId q) as [s|];
      [destruct (present (Some s));
       [destruct (getCollectionsIds ext s) as [[|i l]|]; simpl|]|];
      try discriminate; intros [= <-]; destruct (present (community q)); simpl; auto. }
  unfold filter_slug, filter_name, filter_contract.
  destruct (present (slug q)), (name q) as [n|], (contract q) as [c|];
    try destruct (present (Some n)); try destruct (present (Some c)); simpl; exact P.
Qed.

(** C4. Whatever the sort selector, the statement orders by the volume
    column behind it (day1_volume for 1DayVolume, day7_volume for
    7DayVolume, day30_volume for 30DayVolume, all_time_volume otherwise),
    descending with nulls last, and by nothing else; when the request has
    a continuation, the one condition added to those of the filters is
    that column strictly less than the continuation, which a row passes
    exactly when its value is a number below the cursor. *)
Theorem order_and_resume_predicate (ext : Externals) (q : Query) :
  let col := sort_column (sortBy q) in
  compose ext q =
    (b <- filters ext q ;;
     Ok ({| Sql.conditions :=
              if present (continuation q) then (fst b ++ [Sql.VolumeLt col])%list else fst b;
            Sql.orderBy :=
              [{| Sql.key_column := col;
                  Sql.key_direction := Sql.Desc;
                  Sql.key_nulls := Sql.NullsLast |}];
            Sql.topBidJoin := includeTopBid q |}, snd b))
  /\ (forall st p, compose ext q = Ok (st, p) ->
      Sql.continuation p = continuation q
      /\ Sql.order_text st = " ORDER BY " ++ Sql.column_name col ++ " DESC NULLS LAST")
  /\ Sql.cond_text (Sql.VolumeLt col) = Sql.column_name col ++ " < $/continuation/"
  /\ (forall c r, Store.holds (Store.BVolumeLt col c) r = Some true <->
                  exists v, Store.volume col r = Some v /\ v < c)
  /\ (forall a b, Store.precedes (descNullsLast col) a b =
                  desc_nulls_last (Store.volume col a) (Store.volume col b))
  /\ sort_column (Some "1DayVolume") = Sql.Day1Volume
  /\ sort_column (Some "7DayVolume") = Sql.Day7Volume
  /\ sort_column (Some "30DayVolume") = Sql.Day30Volume
  /\ sort_column (Some "allTimeVolume") = Sql.AllTimeVolume.
Proof.
  intros col.
  assert (E : compose ext q =
    (b <- filters ext q ;;
     Ok ({| Sql.conditions :=
              if present (continuation q) then (fst b ++ [Sql.VolumeLt col])%list else fst b;
            Sql.orderBy := descNullsLast col;
            Sql.topBidJoin := includeTopBid q |}, snd b))).
  { unfold compose. destruct (filters ext q) as [b|e]; simpl; [|reflexivity].
    rewrite sorting_spec. reflexivity. }
  split; [exact E|]. split.
  - intros st p H. rewrite E in H. apply bind_ok in H as (b & Hb & H).
    injection H as <- <-. split.
    + now apply (filters_params ext q).
    + unfold Sql.order_text. simpl. now destruct col.
  - repeat split; try reflexivity.
    + apply holds_volume_lt.
    + apply holds_volume_lt.
    + apply precedes_descNullsLast.
Qed.

(** ** The projection of the rows *)

Lemma eth_deliver (ext : Externals) (v : option Z) :
  eth ext (Numeric.deliver v) =
  option_map (fun z => formatEth ext (JStr (Numeric.numeric_out z))) v.
Proof.
  unfold eth. rewrite truthy_deliver. now destruct v.
Qed.

(** The truth test of the projection does not tell a JavaScript number 0
    from [null]; it is the decimal text of the NUMERIC columns that keeps a
    stored 0 apart. *)
Remark eth_number_zero (ext : Externals) : eth ext (JNum 0) = None.
Proof. reflexivity. Qed.

(** C9. A stored floor price, volume or floor-sale value is projected to
    its conversion by [formatEth], a stored 0 to the conversion of 0, and
    the projected field is null only when the stored value is absent. *)
Theorem zero_is_not_null (ext : Externals) (db : Store.Snapshot) (q : Query)
    (r : Store.Collection) :
  let out := project ext q (Store.select db (includeTopBid q) r) in
  let convert := option_map (fun z => formatEth ext (JStr (Numeric.numeric_out z))) in
  Numeric.numeric_out 0 = "0"
  /\ Response.floorAskPrice out = convert (Store.floor_sell_value r)
  /\ Response.w1day (Response.volume out) = convert (Store.day1_volume r)
  /\ Response.w7day (Response.volume out) = convert (Store.day7_volume r)
  /\ Response.w30day (Response.volume out) = convert (Store.day30_volume r)
  /\ Response.allTime (Response.volume out) = convert (Store.all_time_volume r)
  /\ Response.d1day (Response.floorSale out) = convert (Store.day1_floor_sell_value r)
  /\ Response.d7day (Response.floorSale out) = convert (Store.day7_floor_sell_value r)
  /\ Response.d30day (Response.floorSale out) = convert (Store.day30_floor_sell_value r)
  /\ (forall v, convert v = None <-> v = None)
  /\ convert (Some 0) = Some (formatEth ext (JStr "0")).
Proof.
  intros out convert. subst out convert. simpl.
  repeat split; try apply eth_deliver; try (destruct v; simpl; congruence).
Qed.

(** ** The collection-set filter *)

(** C8. When the resolver gives no identifier for the collection set of a
    request, the handler answers as it does for the same request without
    the collection set: no condition is added, nothing fails. *)
Theorem empty_set_is_no_filter (ext : Externals) (db : Store.Snapshot) (q : Query)
    (setId : string) :
  collectionsSetId q = Some setId ->
  getCollectionsIds ext setId = Ok [] ->
  filters ext q = filters ext (without_collectionsSet q)
  /\ handler ext db q = handler ext db (without_collectionsSet q).
Proof.
  intros Hs He.
  assert (F : filters ext q = filters ext (without_collectionsSet q)).
  { unfold filters, filter_collectionsSet. rewrite Hs. simpl collectionsSetId.
    destruct (present (Some setId)); [rewrite He|]; reflexivity. }
  split; [exact F|].
  unfold handler, compose. rewrite F. reflexivity.
Qed.

(** ** The schema *)

Lemma joi_or_accepts (q : Query) : sortBy q <> None -> joi_or q = Ok q.
Proof.
  unfold joi_or. destruct (sortBy q); [|congruence]. intros _.
  now rewrite !orb_true_r.
Qed.

Lemma validate_keys_sortBy (raw : Http.Query) (q : Query) :
  validate_keys raw = Ok q ->
  exists s, sortBy q = Some s /\ In s sort_selectors
            /\ (Http.sortBy raw = None -> s = "allTimeVolume").
Proof.
  unfold validate_keys. intros H.
  repeat (apply bind_ok in H; destruct H as (? & ? & H)).
  injection H as <-. simpl.
  match goal with Hs : joi_sortBy _ = Ok _ |- _ => revert Hs end.
  unfold joi_sortBy. destruct (Http.sortBy raw) as [s|].
  - destruct (existsb (String.eqb s) sort_selectors) eqn:E; [|discriminate].
    intros [= <-]. exists s. repeat split; [|discriminate].
    apply existsb_exists in E as (s' & Hin & E). apply String.eqb_eq in E. now subst.
  - intros [= <-]. exists "allTimeVolume". repeat split. simpl. auto.
Qed.


Lemma validate_is_keys (raw : Http.Query) : validate raw = validate_keys raw.
Proof.
  unfold validate. destruct (validate_keys raw) as [q|e] eqn:H; simpl; [|reflexivity].
  apply joi_or_accepts. apply validate_keys_sortBy in H as (s & -> & _). discriminate.
Qed.

(** The handler's two [switch]es send a selector outside the four to the
    all-time volume. *)
Lemma sort_column_default (s : string) :
  existsb (String.eqb s) sort_selectors = false ->
  sort_column (Some s) = Sql.AllTimeVolume.
Proof.
  unfold sort_selectors, sort_column. simpl.
  destruct (s =? "1DayVolume")%string; [discriminate|].
  destruct (s =? "7DayVolume")%string; [discriminate|].
  destruct (s =? "30DayVolume")%string; [discriminate|]. reflexivity.
Qed.

(** C7, as the code has it. A sort selector outside the four never reaches
    the handler: the schema of the route rejects the request with a
    validation failure. The handler on its own would take such a selector,
    or none, as all-time volume, for the order, for the resume condition and
    for the continuation. *)
Theorem unknown_selector (ext : Externals) (db : Store.Snapshot) (s : string) :
  existsb (String.eqb s) sort_selectors = false ->
  (forall raw, Http.sortBy raw = Some s ->
     exists key reason, listCollections ext db raw = Err (ValidationError key reason))
  /\ (forall q, sortBy q = Some s \/ sortBy q = None ->
        (forall conds, sorting q conds =
                       (resume q Sql.AllTimeVolume conds, descNullsLast Sql.AllTimeVolume))
        /\ (forall r, cursor_of q r = Store.r_all_time_volume r)).
Proof.
  intros Hs. split.
  - intros raw Hraw. unfold listCollections. rewrite validate_is_keys.
    unfold validate_keys. rewrite Hraw.
    unfold joi_address, joi_lowercase, joi_string, joi_sortBy. rewrite Hs.
    repeat match goal with
           | |- context [match ?x with _ => _ end] =>
               match type of x with
               | option _ => destruct x
               | bool => destruct x
               end; simpl
           end; eauto.
  - intros q Hq. split.
    + intros conds. rewrite sorting_spec.
      destruct Hq as [-> | ->]; [rewrite (sort_column_default _ Hs)|]; reflexivity.
    + intros r. pose proof (sort_column_default _ Hs) as D.
      unfold sort_column in D. unfold cursor_of.
      destruct Hq as [-> | ->]; [|reflexivity].
      destruct (s =? "1DayVolume")%string; [discriminate|].
      destruct (s =? "7DayVolume")%string; [discriminate|].
      destruct (s =? "30DayVolume")%string; [discriminate|]. reflexivity.
Qed.

(** ** The filters *)

Ltac filter_cases q :=
  unfold filters, filter_community, filter_collectionsSet, filter_contract,
    filter_name, filter_slug, present, push, update;
  destruct q as [[?|] [?|] [?|] [?|] [?|] ? ? ? ?]; simpl;
  repeat match goal with
         | |- context [(?s =? "")%string] => destruct (s =? "")%string; simpl
         end;
  repeat match goal with
         | |- context [getCollectionsIds ?e ?s] =>
             destruct (getCollectionsIds e s) as [[|? ?]|]; simpl
         end.

(** The filters read the continuation nowhere: with another continuation
    they give the same conditions, and the same parameters but for it. *)
Lemma filters_with_cursor (ext : Externals) (q : Query) (c : option string) (b : Building) :
  filters ext q = Ok b ->
  filters ext (with_cursor q c) = Ok (fst b, cursor_param (snd b) c).
Proof.
  filter_cases q; try discriminate; intros [= <-]; reflexivity.
Qed.

(** Every condition of the filters finds its parameter, and none reads
    the continuation. *)
Lemma filters_bindable (ext : Externals) (q : Query) (b : Building) :
  filters ext q = Ok b ->
  exists bs,
    mapM (Store.bind_cond (snd b)) (fst b) = Ok bs
    /\ forall c, mapM (Store.bind_cond (cursor_param (snd b) c)) (fst b) = Ok bs.
Proof.
  filter_cases q; try discriminate; intros [= <-]; simpl;
    eexists; split; reflexivity.
Qed.

(** ** The WHERE clause *)

Lemma is_true3_and3 (a b : option bool) :
  is_true3 (Store.and3 a b) = (is_true3 a && is_true3 b)%bool.
Proof. now destruct a as [[|]|], b as [[|]|]. Qed.

(** The conjunction is true exactly when each condition is. *)
Lemma selected_forallb (bs : list Store.Bound) (r : Store.Collection) :
  Store.selected bs r = forallb (fun b => is_true3 (Store.holds b r)) bs.
Proof.
  change (Store.selected bs r) with (is_true3 (Store.conjunction bs r)).
  induction bs as [|b bs IH]; simpl; [reflexivity|].
  now rewrite is_true3_and3, IH.
Qed.

Lemma selected_app (l1 l2 : list Store.Bound) (r : Store.Collection) :
  Store.selected (l1 ++ l2)%list r = (Store.selected l1 r && Store.selected l2 r)%bool.
Proof. now rewrite !selected_forallb, forallb_app. Qed.


Lemma selected_volume_lt (col : Sql.Column) (z : Z) (r : Store.Collection) :
  Store.selected [Store.BVolumeLt col z] r = below col (Some z) r.
Proof.
  unfold Store.selected, below. simpl.
  destruct (Store.volume col r) as [v|]; simpl; [|reflexivity].
  now destruct (v <? z).
Qed.

Lemma filter_both {A : Type} (f g : A -> bool) (l : list A) :
  filter (fun x => (f x && g x)%bool) l = filter g (filter f l).
Proof.
  induction l as [|x l IH]; simpl; [reflexivity|].
  destruct (f x); simpl; [destruct (g x)|]; now rewrite IH.
Qed.

Lemma filter_resume (bs : list Store.Bound) (col : Sql.Column) (z : Z)
    (l : list Store.Collection) :
  filter (Store.selected (bs ++ [Store.BVolumeLt col z])%list) l =
  filter (below col (Some z)) (filter (Store.selected bs) l).
Proof.
  rewrite <- filter_both. apply filter_ext. intros r.
  now rewrite selected_app, selected_volume_lt.
Qed.

Lemma filter_below_none (col : Sql.Column) (l : list Store.Collection) :
  filter (below col None) l = l.
Proof. induction l as [|x l IH]; simpl; [reflexivity | now rewrite IH]. Qed.

(** ** One request *)

Lemma validate_limit (raw : Http.Query) (q : Query) :
  validate raw = Ok q -> 1 <= limit q <= 20.
Proof.
  rewrite validate_is_keys. unfold validate_keys. intros H.
  repeat (apply bind_ok in H; destruct H as (? & ? & H)).
  injection H as <-. simpl.
  match goal with Hl : joi_limit _ = Ok _ |- _ => revert Hl end.
  unfold joi_limit. destruct (Http.limit raw) as [n|].
  - destruct (Z.ltb_spec n 1); [discriminate|].
    destruct (Z.ltb_spec 20 n); [discriminate|]. intros [= <-]. lia.
  - intros [= <-]. lia.
Qed.

(** The schema takes the text of a number as a continuation, and leaves
    the rest of the query as it was. *)
Lemma validate_with_continuation (raw : Http.Query) (q : Query) (c : option Z) :
  validate raw = Ok q ->
  validate (with_continuation raw (option_map Numeric.numeric_out c)) =
  Ok (with_cursor q (option_map Numeric.numeric_out c)).
Proof.
  rewrite !validate_is_keys. unfold validate_keys. simpl.
  destruct (joi_lowercase "collectionsSetId" (Http.collectionsSetId raw)); [|discriminate].
  destruct (joi_lowercase "community" (Http.community raw)); [|discriminate].
  destruct (joi_address "contract" (Http.contract raw)); [|discriminate].
  destruct (joi_lowercase "name" (Http.name raw)); [|discriminate].
  destruct (joi_lowercase "slug" (Http.slug raw)); [|discriminate].
  destruct (joi_sortBy (Http.sortBy raw)); [|discriminate].
  destruct (joi_limit (Http.limit raw)); [|discriminate]. simpl.
  destruct (joi_string "continuation" (Http.continuation raw)); [|discriminate].
  simpl. intros [= <-].
  destruct c as [z|]; simpl; [|reflexivity].
  destruct (String.eqb_spec (Numeric.numeric_out z) ""); [|reflexivity].
  now destruct (numeric_out_not_empty z).
Qed.

Lemma project_with_cursor (ext : Externals) (q : Query) (c : option string) (r : Store.Row) :
  project ext (with_cursor q c) r = project ext q r.
Proof. reflexivity. Qed.

Lemma compose_spec (ext : Externals) (q : Query) :
  compose ext q =
  (b <- filters ext q ;;
   Ok ({| Sql.conditions := resume q (sort_column (sortBy q)) (fst b);
          Sql.orderBy := descNullsLast (sort_column (sortBy q));
          Sql.topBidJoin := includeTopBid q |}, snd b)).
Proof.
  unfold compose. destruct (filters ext q) as [b|e]; simpl; [|reflexivity].
  now rewrite sorting_spec.
Qed.

Lemma last_row_map {A : Type} (f : A -> Store.Row) (l : list A) :
  last_row (map f l) = option_map f (hd_error (rev l)).
Proof.
  unfold last_row. rewrite <- map_rev. now destruct (rev l).
Qed.

(** The continuation of the response, on the stored rows of the page. *)
Lemma next_continuation_view (q : Query) (db : Store.Snapshot) (b : bool)
    (page : list Store.Collection) :
  0 <= limit q ->
  next_continuation q (map (Store.select db b) page) =
  Numeric.deliver (page_cursor (sort_column (sortBy q)) (Z.to_nat (limit q)) page).
Proof.
  intros Hl. unfold next_continuation, page_cursor.
  rewrite length_map, last_row_map.
  destruct (Z.eqb_spec (Z.of_nat (List.length page)) (limit q)) as [E|E].
  - rewrite <- E, Nat2Z.id, Nat.eqb_refl.
    destruct (hd_error (rev page)) as [r|]; simpl; [|reflexivity].
    apply cursor_of_spec.
  - destruct (Nat.eqb_spec (List.length page) (Z.to_nat (limit q))) as [E'|E'];
      [|reflexivity].
    exfalso. apply E. rewrite E'. now apply Z2Nat.id.
Qed.

Lemma bind_limit_ok (p : Sql.Params) :
  0 <= Sql.limit p -> Store.bind_limit p = Ok (Z.to_nat (Sql.limit p)).
Proof.
  intros H. unfold Store.bind_limit. destruct (Z.ltb_spec (Sql.limit p) 0); [lia | reflexivity].
Qed.

Lemma present_numeric_out (z : Z) : present (Some (Numeric.numeric_out z)) = true.
Proof.
  simpl. destruct (String.eqb_spec (Numeric.numeric_out z) ""); [|reflexivity].
  now destruct (numeric_out_not_empty z).
Qed.

(** The rows the store returns for a request whose continuation is the
    text of a cursor: the rows that the filters select, below the cursor,
    in order, up to the limit. *)
Lemma rows_of_page (ext : Externals) (db : Store.Snapshot) (q : Query) (b : Building)
    (bs : list Store.Bound) (c : option Z) (st : Sql.Statement) (p : Sql.Params) :
  filters ext q = Ok b ->
  (forall c', mapM (Store.bind_cond (cursor_param (snd b) c')) (fst b) = Ok bs) ->
  0 <= limit q ->
  compose ext (with_cursor q (option_map Numeric.numeric_out c)) = Ok (st, p) ->
  Store.rows db st p =
  Ok (page_rows (sort_column (sortBy q)) (Z.to_nat (limit q))
        (filter (Store.selected bs) (Store.collections db)) c)
  /\ Sql.topBidJoin st = includeTopBid q.
Proof.
  intros Hf Hb Hl. rewrite compose_spec, (@filters_with_cursor ext q _ b Hf). simpl.
  intros [= <- <-]. split; [|reflexivity].
  destruct (@filters_params ext q b Hf) as [_ Hlim].
  unfold Store.rows, page_rows. simpl Sql.conditions. simpl Sql.orderBy.
  rewrite bind_limit_ok by (simpl; lia). simpl Sql.limit. rewrite Hlim.
  unfold resume. simpl continuation.
  destruct c as [z|].
  - simpl option_map. rewrite present_numeric_out, mapM_app, Hb. simpl.
    rewrite numeric_in_out. simpl. now rewrite filter_resume.
  - simpl. rewrite Hb. simpl. now rewrite filter_below_none.
Qed.

Lemma handler_page (ext : Externals) (db : Store.Snapshot) (q : Query) (b : Building)
    (bs : list Store.Bound) (c : option Z) :
  filters ext q = Ok b ->
  (forall c', mapM (Store.bind_cond (cursor_param (snd b) c')) (fst b) = Ok bs) ->
  0 <= limit q ->
  handler ext db (with_cursor q (option_map Numeric.numeric_out c)) =
  Ok (view ext db q
        (page_rows (sort_column (sortBy q)) (Z.to_nat (limit q))
           (filter (Store.selected bs) (Store.collections db)) c)).
Proof.
  intros Hf Hb Hl. unfold handler.
  destruct (compose ext (with_cursor q (option_map Numeric.numeric_out c)))
    as [[st p]|e] eqn:Hc.
  - destruct (@rows_of_page ext db q b bs c st p Hf Hb Hl Hc) as [Hr Ht].
    simpl. unfold Store.manyOrNone. rewrite Hr, Ht. simpl.
    unfold view. f_equal. f_equal.
    + now rewrite map_map.
    + now rewrite (@next_continuation_view (with_cursor q _) db _ _ Hl).
  - rewrite compose_spec, (@filters_with_cursor ext q _ b Hf) in Hc. discriminate.
Qed.

(** ** ORDER BY *)

Section SortFacts.

Variable A : Type.
Variable leb : A -> A -> bool.

Lemma insert_permutation (x : A) (l : list A) :
  Permutation (x :: l) (Store.insert leb x l).
Proof.
  induction l as [|y l IH]; simpl; [reflexivity|].
  destruct (leb x y); [reflexivity|].
  rewrite perm_swap. now apply perm_skip.
Qed.

Lemma sort_permutation (l : list A) : Permutation l (Store.sort leb l).
Proof.
  induction l as [|x l IH]; simpl; [reflexivity|].
  rewrite <- insert_permutation. now apply perm_skip.
Qed.

Lemma sort_in (l : list A) (x : A) : In x (Store.sort leb l) <-> In x l.
Proof.
  split; apply Permutation_in; [symmetry|]; apply sort_permutation.
Qed.

Hypothesis leb_total : forall a b, leb a b = false -> leb b a = true.
Hypothesis leb_trans : forall a b c, leb a b = true -> leb b c = true -> leb a c = true.

Let R (a b : A) : Prop := leb a b = true.

Lemma insert_sorted (x : A) (l : list A) :
  StronglySorted R l -> StronglySorted R (Store.insert leb x l).
Proof.
  induction 1 as [|y l Hs IH Hy]; simpl.
  - constructor; constructor.
  - destruct (leb x y) eqn:E.
    + constructor; [now constructor|]. constructor; [exact E|].
      eapply Forall_impl; [|exact Hy]. intros z Hz. eapply leb_trans; eassumption.
    + constructor; [exact IH|].
      eapply Permutation_Forall; [apply insert_permutation|].
      constructor; [now apply leb_total | exact Hy].
Qed.

Lemma sort_sorted (l : list A) : StronglySorted R (Store.sort leb l).
Proof.
  induction l as [|x l IH]; simpl; [constructor | now apply insert_sorted].
Qed.

Lemma sorted_app (l1 l2 : list A) :
  StronglySorted R (l1 ++ l2) ->
  forall x y, In x l1 -> In y l2 -> leb x y = true.
Proof.
  induction l1 as [|a l1 IH]; simpl; intros Hs x y Hx Hy; [contradiction|].
  inversion Hs as [|? ? Hs' Ha]; subst.
  destruct Hx as [<- | Hx].
  - rewrite Forall_forall in Ha. apply Ha. apply in_or_app. now right.
  - now apply IH.
Qed.

End SortFacts.

Lemma desc_nulls_last_total (a b : option Z) :
  desc_nulls_last a b = false -> desc_nulls_last b a = true.
Proof.
  destruct a as [x|], b as [y|]; simpl; try congruence.
  intros H. apply Z.leb_gt in H. apply Z.leb_le. lia.
Qed.

Lemma desc_nulls_last_trans (a b c : option Z) :
  desc_nulls_last a b = true -> desc_nulls_last b c = true -> desc_nulls_last a c = true.
Proof.
  destruct a as [x|], b as [y|], c as [z|]; simpl; try congruence.
  rewrite !Z.leb_le. lia.
Qed.

(** ** Walking through the pages *)

Section Walk.

Variable col : Sql.Column.
Variable n : nat.
Variable rows : list Store.Collection.

Hypothesis n_positive : (1 <= n)%nat.
Hypothesis rows_nodup : NoDup rows.

Let leb := Store.precedes (descNullsLast col).
Let ordered (c : option Z) := Store.sort leb (filter (below col c) rows).

Lemma precedes_volume (a b : Store.Collection) :
  leb a b = desc_nulls_last (Store.volume col a) (Store.volume col b).
Proof. apply precedes_descNullsLast. Qed.

Lemma ordered_sorted (c : option Z) :
  StronglySorted (fun a b => leb a b = true) (ordered c).
Proof.
  apply sort_sorted.
  - intros a b. rewrite !precedes_volume. apply desc_nulls_last_total.
  - intros a b x. rewrite !precedes_volume. apply desc_nulls_last_trans.
Qed.

Lemma ordered_in (c : option Z) (r : Store.Collection) :
  In r (ordered c) <-> In r rows /\ below col c r = true.
Proof. unfold ordered. now rewrite sort_in, filter_In. Qed.

Lemma ordered_nodup (c : option Z) : NoDup (ordered c).
Proof.
  eapply Permutation_NoDup; [apply sort_permutation|]. now apply NoDup_filter.
Qed.

Lemma ordered_split (c : option Z) :
  ordered c = (page_rows col n rows c ++ skipn n (ordered c))%list.
Proof. unfold page_rows. fold leb. fold (ordered c). now rewrite firstn_skipn. Qed.

Lemma page_in (c : option Z) (r : Store.Collection) :
  In r (page_rows col n rows c) -> In r rows /\ below col c r = true.
Proof.
  intros H. apply ordered_in. rewrite ordered_split. apply in_or_app. now left.
Qed.

Lemma page_nodup (c : option Z) : NoDup (page_rows col n rows c).
Proof.
  apply NoDup_app_remove_r with (l' := skipn n (ordered c)).
  rewrite <- ordered_split. apply ordered_nodup.
Qed.

(** A full page ends with the row whose value is the cursor. *)
Lemma page_cursor_some (page : list Store.Collection) (w : Z) :
  page_cursor col n page = Some w ->
  exists front l, page = (front ++ [l])%list /\ Store.volume col l = Some w.
Proof.
  unfold page_cursor. destruct (Nat.eqb (List.length page) n); [|discriminate].
  destruct (rev page) as [|l front] eqn:E; simpl; [discriminate|].
  intros H. exists (rev front), l. split; [|exact H].
  rewrite <- (rev_involutive page), E. reflexivity.
Qed.

(** A page without a cursor is short, or ends with a row without value. *)
Lemma page_cursor_none (page : list Store.Collection) :
  page_cursor col n page = None ->
  List.length page <> n
  \/ exists front l, page = (front ++ [l])%list /\ Store.volume col l = None.
Proof.
  unfold page_cursor. destruct (Nat.eqb_spec (List.length page) n) as [E|E]; [|now left].
  destruct (rev page) as [|l front] eqn:Er; simpl.
  - intros _. left. apply (f_equal (@rev _)) in Er. rewrite rev_involutive in Er.
    subst page. simpl in E. lia.
  - intros H. right. exists (rev front), l. split; [|exact H].
    rewrite <- (rev_involutive page), Er. reflexivity.
Qed.

(** The rows of a page come before the rows left out of it. *)
Lemma page_before_rest (c : option Z) (x y : Store.Collection) :
  In x (page_rows col n rows c) -> In y (skipn n (ordered c)) ->
  desc_nulls_last (Store.volume col x) (Store.volume col y) = true.
Proof.
  intros Hx Hy. rewrite <- precedes_volume.
  apply (sorted_app leb) with (l1 := page_rows col n rows c) (l2 := skipn n (ordered c));
    auto.
  rewrite <- ordered_split. apply ordered_sorted.
Qed.

(** The rows of a page come before its last row. *)
Lemma page_before_last (c : option Z) (front : list Store.Collection)
    (l x : Store.Collection) :
  page_rows col n rows c = (front ++ [l])%list -> In x (front ++ [l])%list ->
  x = l \/ desc_nulls_last (Store.volume col x) (Store.volume col l) = true.
Proof.
  intros E Hx. apply in_app_or in Hx as [Hx | [-> | []]]; [right | now left].
  rewrite <- precedes_volume.
  apply (sorted_app leb) with (l1 := front) (l2 := ([l] ++ skipn n (ordered c))%list).
  - rewrite app_assoc, <- E, <- ordered_split. apply ordered_sorted.
  - exact Hx.
  - now left.
Qed.

Lemma short_page_is_all (c : option Z) :
  List.length (page_rows col n rows c) <> n -> skipn n (ordered c) = [].
Proof.
  unfold page_rows. fold leb. fold (ordered c). rewrite length_firstn.
  intros H. apply skipn_all2. lia.
Qed.

Lemma below_cursor (c : option Z) (l r : Store.Collection) (w : Z) :
  below col c l = true -> Store.volume col l = Some w ->
  below col (Some w) r = true -> below col c r = true.
Proof.
  unfold below. destruct c as [z|]; [|reflexivity].
  intros Hl Hw. rewrite Hw in Hl. destruct (Store.volume col r) as [v|]; [|discriminate].
  rewrite !Z.ltb_lt in *. lia.
Qed.




End Walk.

(** ** Following the continuation *)

Lemma all_collections_view (ext : Externals) (db : Store.Snapshot) (q : Query)
    (pages : list (list Store.Collection)) :
  all_collections (map (view ext db q) pages) =
  map (fun r => project ext q (Store.select db (includeTopBid q) r)) (List.concat pages).
Proof.
  unfold all_collections. induction pages as [|page pages IH]; simpl; [reflexivity|].
  now rewrite map_app, IH.
Qed.

Lemma cursors_view (ext : Externals) (db : Store.Snapshot) (q : Query)
    (pages : list (list Store.Collection)) :
  cursors (map (view ext db q) pages) =
  map Numeric.numeric_out
    (boundaries (sort_column (sortBy q)) (Z.to_nat (limit q)) pages).
Proof.
  unfold cursors, boundaries. induction pages as [|page pages IH]; simpl; [reflexivity|].
  rewrite map_app, IH, token_deliver.
  now destruct (page_cursor (sort_column (sortBy q)) (Z.to_nat (limit q)) page).
Qed.

(** The client's walk through the pages is the walk on the stored rows. *)
Lemma paginate_walk (ext : Externals) (db : Store.Snapshot) (raw : Http.Query) (q : Query)
    (b : Building) (bs : list Store.Bound) (fuel : nat) :
  validate raw = Ok q ->
  filters ext q = Ok b ->
  (forall c', mapM (Store.bind_cond (cursor_param (snd b) c')) (fst b) = Ok bs) ->
  forall c,
    paginate ext db fuel (with_continuation raw (option_map Numeric.numeric_out c)) =
    option_map (fun pages => Ok (map (view ext db q) pages))
      (walk (sort_column (sortBy q)) (Z.to_nat (limit q))
         (filter (Store.selected bs) (Store.collections db)) fuel c).
Proof.
  intros Hv Hf Hb. pose proof (validate_limit raw Hv) as Hl.
  induction fuel as [|fuel IH]; intros c; [reflexivity|].
  simpl. unfold listCollections.
  rewrite (validate_with_continuation raw c Hv). simpl bind.
  rewrite (@handler_page ext db q b bs c Hf Hb) by lia.
  simpl Response.continuation. rewrite token_deliver.
  destruct (page_cursor _ _ _) as [z|]; simpl; [|reflexivity].
  change (Some (Numeric.numeric_out z)) with (option_map Numeric.numeric_out (Some z)).
  change (with_continuation (with_continuation raw (option_map Numeric.numeric_out c))
            (option_map Numeric.numeric_out (Some z)))
    with (with_continuation raw (option_map Numeric.numeric_out (Some z))).
  rewrite IH. now destruct (walk _ _ _ fuel (Some z)).
Qed.


Lemma without_continuation (raw : Http.Query) :
  Http.continuation raw = None -> with_continuation raw None = raw.
Proof. destruct raw. simpl. now intros ->. Qed.


(** ** The continuation of one page *)

(** A page of the handler shows the rows the store returned for the
    composed statement. *)
Lemma handler_ok (ext : Externals) (db : Store.Snapshot) (q : Query) (page : Response.Page) :
  handler ext db q = Ok page ->
  exists st p shown,
    compose ext q = Ok (st, p)
    /\ Store.rows db st p = Ok shown
    /\ 0 <= limit q
    /\ page = view ext db q shown.
Proof.
  unfold handler. intros H. apply bind_ok in H as ([st p] & Hc & H).
  unfold Store.manyOrNone in H. simpl in H.
  apply bind_ok in H as (result & Hr & H). apply bind_ok in Hr as (shown & Hs & Hr).
  injection Hr as <-. injection H as <-.
  assert (Hl : 0 <= limit q).
  { pose proof Hc as Hc'. rewrite compose_spec in Hc'.
    apply bind_ok in Hc' as (b & Hf & Hc'). injection Hc' as <- <-.
    destruct (@filters_params ext q b Hf) as [_ <-].
    unfold Store.rows in Hs. apply bind_ok in Hs as (bs & _ & Hs).
    apply bind_ok in Hs as (n & Hn & _). unfold Store.bind_limit in Hn.
    destruct (Z.ltb_spec (Sql.limit (snd b)) 0); [discriminate | lia]. }
  exists st, p, shown. repeat split; auto.
  unfold view. f_equal.
  - rewrite map_map. f_equal.
    rewrite compose_spec in Hc. apply bind_ok in Hc as (b & _ & Hc).
    now injection Hc as <- _.
  - rewrite compose_spec in Hc. apply bind_ok in Hc as (b & _ & Hc).
    injection Hc as <- _. simpl. now apply next_continuation_view.
Qed.

(** C3, as the code has it. The continuation of a page is the value that
    the sort column has in the last returned row when the page has exactly
    [limit] rows, and null otherwise: a continuation that is not null comes
    with a full page and is the text of that value, a page shorter than the
    limit has a null continuation, and so has a full page whose last row
    has no value in the sort column. *)
Theorem continuation_of_page (ext : Externals) (db : Store.Snapshot) (q : Query)
    (page : Response.Page) :
  handler ext db q = Ok page ->
  exists shown,
    Response.collections page =
      map (fun r => project ext q (Store.select db (includeTopBid q) r)) shown
    /\ (Response.continuation page <> JNull ->
        Z.of_nat (List.length (Response.collections page)) = limit q)
    /\ (Z.of_nat (List.length (Response.collections page)) <> limit q ->
        Response.continuation page = JNull)
    /\ (Z.of_nat (List.length (Response.collections page)) = limit q ->
        forall front l, shown = (front ++ [l])%list ->
        Response.continuation page =
          Numeric.deliver (Store.volume (sort_column (sortBy q)) l)
        /\ (Response.continuation page = JNull <->
            Store.volume (sort_column (sortBy q)) l = None)).
Proof.
  intros H. apply handler_ok in H as (st & p & shown & _ & _ & Hl & ->).
  exists shown. simpl. rewrite length_map. unfold page_cursor.
  split; [reflexivity|].
  destruct (Nat.eqb_spec (List.length shown) (Z.to_nat (limit q))) as [E|E].
  - repeat split; try lia; subst shown; rewrite rev_app_distr; simpl.
    + reflexivity.
    + now destruct (Store.volume (sort_column (sortBy q)) l).
    + now intros ->.
  - repeat split; try reflexivity; try (intros; exfalso; apply E; lia).
    now intros [].
Qed.

(** ** A continuation that is not a number *)



(** ** The order of the conditions *)

Section MapM.

Variables A B : Type.
Variable f : A -> Result B.
Variable d : B.





End MapM.


(** ** A worked example: three collections of one contract *)

Lemma listCollections_page (ext : Externals) (db : Store.Snapshot) (raw : Http.Query)
    (q : Query) (b : Building) (bs : list Store.Bound) (c : option Z) :
  validate raw = Ok q ->
  filters ext q = Ok b ->
  (forall c', mapM (Store.bind_cond (cursor_param (snd b) c')) (fst b) = Ok bs) ->
  listCollections ext db (with_continuation raw (option_map Numeric.numeric_out c)) =
  Ok (view ext db q
        (page_rows (sort_column (sortBy q)) (Z.to_nat (limit q))
           (filter (Store.selected bs) (Store.collections db)) c)).
Proof.
  intros Hv Hf Hb. pose proof (validate_limit raw Hv) as Hl.
  unfold listCollections. rewrite (validate_with_continuation raw c Hv). simpl bind.
  apply (@handler_page ext db q b bs c Hf Hb). lia.
Qed.

Section KeysOfRows.

Variable A : Type.
Variable key : A -> option Z.
Variable leb : A -> A -> bool.
Hypothesis leb_key : forall a b, leb a b = desc_nulls_last (key a) (key b).

Lemma map_insert (x : A) (l : list A) :
  map key (Store.insert leb x l) = Store.insert desc_nulls_last (key x) (map key l).
Proof.
  induction l as [|y l IH]; simpl; [reflexivity|].
  rewrite leb_key. destruct (desc_nulls_last (key x) (key y)); simpl; [reflexivity|].
  now rewrite IH.
Qed.

Lemma map_sort (l : list A) :
  map key (Store.sort leb l) = Store.sort desc_nulls_last (map key l).
Proof.
  induction l as [|x l IH]; simpl; [reflexivity|]. now rewrite map_insert, IH.
Qed.

End KeysOfRows.

Lemma map_filter_below (col : Sql.Column) (c : option Z) (l : list Store.Collection) :
  map (Store.volume col) (filter (below col c) l) =
  filter (key_below c) (map (Store.volume col) l).
Proof.
  induction l as [|r l IH]; simpl; [reflexivity|].
  change (below col c r) with (key_below c (Store.volume col r)).
  destruct (key_below c (Store.volume col r)); simpl; now rewrite IH.
Qed.

Lemma page_rows_keys (col : Sql.Column) (n : nat) (rows : list Store.Collection)
    (c : option Z) :
  map (Store.volume col) (page_rows col n rows c) =
  keys_page n (map (Store.volume col) rows) c.
Proof.
  unfold page_rows, keys_page.
  rewrite <- firstn_map, (map_sort (Store.volume col)), map_filter_below; [reflexivity|].
  apply precedes_descNullsLast.
Qed.

Lemma page_cursor_keys (col : Sql.Column) (n : nat) (page : list Store.Collection) :
  page_cursor col n page =
  if Nat.eqb (List.length (map (Store.volume col) page)) n then
    match hd_error (rev (map (Store.volume col) page)) with
    | Some k => k
    | None => None
    end
  else None.
Proof.
  unfold page_cursor. rewrite length_map, <- map_rev. now destruct (rev page).
Qed.

Lemma permutation_of_three {A : Type} (l : list A) (a b c : A) :
  Permutation l [a; b; c] ->
  l = [a; b; c] \/ l = [a; c; b] \/ l = [b; a; c]
  \/ l = [b; c; a] \/ l = [c; a; b] \/ l = [c; b; a].
Proof.
  intros P. pose proof (Permutation_length P) as L.
  destruct l as [|x [|y [|z [|? ?]]]]; try discriminate L.
  assert (Hx : In x [a; b; c]) by (eapply Permutation_in; [exact P | now left]).
  destruct Hx as [<- | [<- | [<- | []]]].
  - apply Permutation_cons_inv in P. symmetry in P.
    apply Permutation_length_2_inv in P as [-> | ->]; auto.
  - assert (P' : Permutation [y; z] [a; c]).
    { apply Permutation_cons_inv with (a := b). rewrite P. apply perm_swap. }
    symmetry in P'. apply Permutation_length_2_inv in P' as [-> | ->]; auto 6.
  - assert (P' : Permutation [y; z] [a; b]).
    { apply Permutation_cons_inv with (a := c). rewrite P.
      etransitivity; [apply perm_skip, perm_swap | apply perm_swap]. }
    symmetry in P'. apply Permutation_length_2_inv in P' as [-> | ->]; auto 7.
Qed.

Lemma validate_by_contract (c sortBy : string) (n : Z) (q : Query) :
  validate (Sample.by_contract c sortBy n) = Ok q ->
  q = {| collectionsSetId := None;
         community := None;
         contract := Some (toLowerCase c);
         name := None;
         slug := None;
         sortBy := Some sortBy;
         includeTopBid := false;
         limit := n;
         continuation := None |}.
Proof.
  rewrite validate_is_keys. unfold validate_keys, Sample.by_contract. simpl.
  unfold joi_address, joi_lowercase, joi_string, joi_sortBy, joi_limit.
  destruct (c =? "")%string; simpl; [discriminate|].
  destruct (is_address (toLowerCase c)); simpl; [|discriminate].
  match goal with
  | |- context [if ?t then Ok (Some sortBy) else _] => destruct t
  end; simpl; [|discriminate].
  destruct (n <? 1); simpl; [discriminate|].
  destruct (20 <? n); simpl; [discriminate|].
  now intros [= <-].
Qed.

(** C5. Against a snapshot in which the collections of a contract are
    three, with 7-day volumes 50, 30 and 10 in any order of storage, the
    request for that contract by 7-day volume with limit 2 returns the rows
    of volume 50 and 30, in this order, and the continuation "30"; the same
    request with that continuation returns the row of volume 10 alone, and
    a null continuation. *)
Theorem three_collections_two_pages (ext : Externals) (db : Store.Snapshot) (c : string)
    (q : Query) (selection : list Store.Collection) :
  let raw := Sample.by_contract c "7DayVolume" 2 in
  let show := fun r => project ext q (Store.select db (includeTopBid q) r) in
  validate raw = Ok q ->
  matching ext db q = Ok selection ->
  Permutation (map Store.day7_volume selection) [Some 50; Some 30; Some 10] ->
  exists first second,
    listCollections ext db raw =
      Ok {| Response.collections := map show first; Response.continuation := JStr "30" |}
    /\ map Store.day7_volume first = [Some 50; Some 30]
    /\ listCollections ext db (with_continuation raw (Some "30")) =
      Ok {| Response.collections := map show second; Response.continuation := JNull |}
    /\ map Store.day7_volume second = [Some 10]
    /\ incl first selection /\ incl second selection.
Proof.
  intros raw show Hv Hm P.
  pose proof (validate_by_contract _ _ _ Hv) as Hq.
  unfold matching in Hm. apply bind_ok in Hm as (b & Hf & Hm).
  apply bind_ok in Hm as (bs & Hbs & Hm). injection Hm as <-.
  destruct (@filters_bindable ext q b Hf) as (bs' & Hbs' & Hb).
  rewrite Hbs in Hbs'. injection Hbs' as <-.
  set (rows := filter (Store.selected bs) (Store.collections db)) in *.
  pose proof (@listCollections_page ext db raw q b bs None Hv Hf Hb) as L1.
  pose proof (@listCollections_page ext db raw q b bs (Some 30) Hv Hf Hb) as L2.
  change (with_continuation raw (option_map Numeric.numeric_out None)) with raw in L1.
  change (option_map Numeric.numeric_out (Some 30)) with (Some "30") in L2.
  assert (Hcol : sort_column (sortBy q) = Sql.Day7Volume) by now rewrite Hq.
  assert (Hn : Z.to_nat (limit q) = 2%nat) by now rewrite Hq.
  fold rows in L1, L2. unfold view in L1, L2. rewrite Hcol, Hn in L1, L2.
  pose proof (page_rows_keys Sql.Day7Volume 2 rows None) as K1.
  pose proof (page_rows_keys Sql.Day7Volume 2 rows (Some 30)) as K2.
  rewrite page_cursor_keys in L1, L2. rewrite K1 in L1. rewrite K2 in L2.
  change (Store.volume Sql.Day7Volume) with Store.day7_volume in *.
  exists (page_rows Sql.Day7Volume 2 rows None), (page_rows Sql.Day7Volume 2 rows (Some 30)).
  assert (I : forall c', incl (page_rows Sql.Day7Volume 2 rows c') rows).
  { intros c' r Hr. now apply page_in in Hr as [Hr _]. }
  rewrite L1, L2, K1, K2.
  apply permutation_of_three in P as [-> | [-> | [-> | [-> | [-> | ->]]]]];
    repeat split; try reflexivity; apply I.
Qed.

(** * The claims of the specification on sample data *)



(** C3, against the claim as stated: a page with exactly [limit] rows
    whose continuation is null. *)
Lemma full_page_null_continuation :
  let raw := Sample.by_contract Sample.abc "7DayVolume" 1 in
  exists page,
    listCollections Sample.ext Sample.only_unsold raw = Ok page
    /\ map Response.id (Response.collections page) = ["unsold"]
    /\ Http.limit raw = Some (Z.of_nat (List.length (Response.collections page)))
    /\ Response.continuation page = JNull.
Proof.
  intros raw. eexists. split; [vm_compute; reflexivity|].
  repeat split; reflexivity.
Qed.


(** C7, against the claim as stated: a request with a sort selector
    outside the four fails. *)
Lemma unknown_selector_is_rejected :
  listCollections Sample.ext Sample.three (Sample.by_contract Sample.abc "floorPrice" 2)
  = Err (ValidationError "sortBy" "must be one of the sort selectors").
Proof. vm_compute. reflexivity. Qed.



Lemma continuation_of_page_sample :
  let q := Sample.contract_query Sample.abc "7DayVolume" 2 in
  let page := view Sample.ext Sample.three q [Sample.c50; Sample.c30] in
  handler Sample.ext Sample.three q = Ok page
  /\ Response.continuation page = JStr "30"
  /\ exists shown,
       Response.collections page =
         map (fun r => project Sample.ext q
                         (Store.select Sample.three (includeTopBid q) r)) shown
       /\ (Response.continuation page <> JNull ->
           Z.of_nat (List.length (Response.collections page)) = limit q)
       /\ (Z.of_nat (List.length (Response.collections page)) <> limit q ->
           Response.continuation page = JNull)
       /\ (Z.of_nat (List.length (Response.collections page)) = limit q ->
           forall front l, shown = (front ++ [l])%list ->
           Response.continuation page =
             Numeric.deliver (Store.volume (sort_column (sortBy q)) l)
           /\ (Response.continuation page = JNull <->
               Store.volume (sort_column (sortBy q)) l = None)).
Proof.
  intros q page.
  assert (H : handler Sample.ext Sample.three q = Ok page) by (vm_compute; reflexivity).
  split; [exact H|]. split; [reflexivity|].
  exact (continuation_of_page Sample.ext Sample.three q H).
Defined.

Lemma three_collections_two_pages_sample :
  let raw := Sample.by_contract Sample.abc "7DayVolume" 2 in
  let q := Sample.contract_query Sample.abc "7DayVolume" 2 in
  let selection := [Sample.c30; Sample.c10; Sample.c50] in
  let show := fun r => project Sample.ext q
                         (Store.select Sample.three (includeTopBid q) r) in
  validate raw = Ok q
  /\ matching Sample.ext Sample.three q = Ok selection
  /\ Permutation (map Store.day7_volume selection) [Some 50; Some 30; Some 10]
  /\ exists first second,
       listCollections Sample.ext Sample.three raw =
         Ok {| Response.collections := map show first;
               Response.continuation := JStr "30" |}
       /\ map Store.day7_volume first = [Some 50; Some 30]
       /\ listCollections Sample.ext Sample.three (with_continuation raw (Some "30")) =
         Ok {| Response.collections := map show second;
               Response.continuation := JNull |}
       /\ map Store.day7_volume second = [Some 10]
       /\ incl first selection /\ incl second selection.
Proof.
  intros raw q selection show.
  assert (H1 : validate raw = Ok q) by (vm_compute; reflexivity).
  assert (H2 : matching Sample.ext Sample.three q = Ok selection)
    by (vm_compute; reflexivity).
  assert (H3 : Permutation (map Store.day7_volume selection)
                 [Some 50; Some 30; Some 10]).
  { simpl. apply Permutation_sym. apply (@Permutation_cons_app _ _ [Some 30; Some 10] []).
    reflexivity. }
  split; [exact H1|]. split; [exact H2|]. split; [exact H3|].
  exact (three_collections_two_pages Sample.ext Sample.three Sample.abc H1 H2 H3).
Defined.

Lemma unknown_selector_sample :
  existsb (String.eqb "floorPrice") sort_selectors = false
  /\ (forall raw, Http.sortBy raw = Some "floorPrice" ->
        exists key reason,
          listCollections Sample.ext Sample.three raw = Err (ValidationError key reason))
  /\ (forall q, sortBy q = Some "floorPrice" \/ sortBy q = None ->
        (forall conds, sorting q conds =
                       (resume q Sql.AllTimeVolume conds, descNullsLast Sql.AllTimeVolume))
        /\ (forall r, cursor_of q r = Store.r_all_time_volume r)).
Proof.
  assert (H : existsb (String.eqb "floorPrice") sort_selectors = false) by reflexivity.
  split; [exact H|].
  exact (unknown_selector Sample.ext Sample.three "floorPrice" H).
Defined.

Lemma empty_set_is_no_filter_sample :
  let q := Sample.set_query "empty" in
  collectionsSetId q = Some "empty"
  /\ getCollectionsIds Sample.ext "empty" = Ok []
  /\ filters Sample.ext q = filters Sample.ext (without_collectionsSet q)
  /\ handler Sample.ext Sample.three q
     = handler Sample.ext Sample.three (without_collectionsSet q).
Proof.
  intros q.
  assert (H1 : collectionsSetId q = Some "empty") by reflexivity.
  assert (H2 : getCollectionsIds Sample.ext "empty" = Ok []) by reflexivity.
  split; [exact H1|]. split; [exact H2|].
  exact (empty_set_is_no_filter Sample.ext Sample.three q H1 H2).
Defined.


Lemma order_and_resume_predicate_sample :
  let q := with_cursor (Sample.contract_query Sample.abc "7DayVolume" 2) (Some "30") in
  let st := {| Sql.conditions := [Sql.ContractEq; Sql.VolumeLt Sql.Day7Volume];
               Sql.orderBy := descNullsLast Sql.Day7Volume;
               Sql.topBidJoin := false |} in
  let p := set_contract (toBuffer Sample.ext Sample.abc) (params_of q) in
  compose Sample.ext q = Ok (st, p)
  /\ Sql.continuation p = continuation q
  /\ Sql.order_text st = " ORDER BY collections.day7_volume DESC NULLS LAST".
Proof.
  intros q st p.
  assert (H : compose Sample.ext q = Ok (st, p)) by reflexivity.
  split; [exact H|].
  exact (proj1 (proj2 (order_and_resume_predicate Sample.ext q)) st p H).
Defined.


(** * Further properties of the route *)

(** ** The outcome of the handler *)

(** The handler on any query whose collection set resolves: the store's
    rejection of an unreadable cursor or of a negative limit, or else the
    page of the rows that the filters select below the cursor. *)
Lemma handler_outcome (ext : Externals) (db : Store.Snapshot) (q : Query)
    (selection : list Store.Collection) :
  matching ext db q = Ok selection ->
  handler ext db q =
  match read_cursor q with
  | Malformed tok => Err (StoreError (InvalidNumericSyntax tok))
  | c =>
      if limit q <? 0 then Err (StoreError NegativeLimit)
      else Ok (view ext db q
                 (page_rows (sort_column (sortBy q)) (Z.to_nat (limit q)) selection
                    (resume_value c)))
  end.
Proof.
  unfold matching. intros Hm. apply bind_ok in Hm as (b & Hf & Hm).
  apply bind_ok in Hm as (bs & Hbs & Hm). injection Hm as <-.
  destruct (@filters_params ext q b Hf) as [Hcont Hlim].
  assert (Hrows : forall c,
    (if limit q <? 0 then Err (StoreError NegativeLimit)
     else Ok (view ext db q
                (page_rows (sort_column (sortBy q)) (Z.to_nat (limit q))
                   (filter (Store.selected bs) (Store.collections db)) c))) =
    (n <- Store.bind_limit (snd b) ;;
     result <- Ok (map (Store.select db (includeTopBid q))
                     (firstn n (Store.sort
                                  (Store.precedes (descNullsLast (sort_column (sortBy q))))
                                  (filter (below (sort_column (sortBy q)) c)
                                     (filter (Store.selected bs) (Store.collections db)))))) ;;
     Ok {| Response.collections := map (project ext q) result;
           Response.continuation := next_continuation q result |})).
  { intros c. unfold Store.bind_limit. rewrite Hlim.
    destruct (Z.ltb_spec (limit q) 0) as [Hneg | Hpos]; [reflexivity|].
    simpl. unfold view, page_rows. rewrite map_map.
    now rewrite (@next_continuation_view q db _ _ Hpos). }
  unfold handler. rewrite compose_spec, Hf. simpl.
  unfold Store.manyOrNone, Store.rows. simpl. unfold resume, read_cursor.
  destruct (continuation q) as [tok|] eqn:Hc.
  - destruct (present (Some tok)) eqn:Hp.
    + rewrite mapM_app, Hbs. simpl. rewrite Hcont. simpl.
      destruct (Numeric.numeric_in tok) as [z|]; simpl; [|reflexivity].
      rewrite (Hrows (Some z)), filter_resume.
      now destruct (Store.bind_limit (snd b)).
    + rewrite Hbs. simpl. rewrite (Hrows None), filter_below_none.
      now destruct (Store.bind_limit (snd b)).
  - simpl. rewrite Hbs. simpl. rewrite (Hrows None), filter_below_none.
    now destruct (Store.bind_limit (snd b)).
Qed.

(** A failure of the resolver is the failure of the request. *)
Lemma handler_resolver_failure (ext : Externals) (db : Store.Snapshot) (q : Query)
    (e : Failure) :
  filters ext q = Err e -> handler ext db q = Err e.
Proof.
  intros H. unfold handler. now rewrite compose_spec, H.
Qed.

Lemma matching_filters (ext : Externals) (db : Store.Snapshot) (q : Query) :
  match filters ext q with
  | Ok _ => exists selection, matching ext db q = Ok selection
  | Err e => matching ext db q = Err e
  end.
Proof.
  unfold matching. destruct (filters ext q) as [b|e] eqn:Hf; [|reflexivity].
  destruct (@filters_bindable ext q b Hf) as (bs & Hbs & _).
  simpl. rewrite Hbs. simpl. eauto.
Qed.


(** ** The pages of a walk, one after the other *)

Lemma in_firstn {A : Type} (n : nat) (l : list A) (y : A) :
  In y (firstn n l) -> In y l.
Proof.
  revert n. induction l as [|x l IH]; intros n H.
  - now rewrite firstn_nil in H.
  - destruct n as [|n]; simpl in H; [contradiction|].
    destruct H as [-> | H]; [now left | right; eapply IH; exact H].
Qed.

Lemma sorted_firstn {A : Type} (R : A -> A -> Prop) (n : nat) (l : list A) :
  StronglySorted R l -> StronglySorted R (firstn n l).
Proof.
  revert n. induction l as [|x l IH]; intros n Hs; [now rewrite firstn_nil|].
  destruct n as [|n]; simpl; [constructor|].
  inversion Hs as [|? ? Hs' Hx]; subst. constructor; [now apply IH|].
  rewrite Forall_forall in *. intros y Hy. apply Hx. eapply in_firstn. exact Hy.
Qed.

Lemma sorted_append {A : Type} (R : A -> A -> Prop) (l1 l2 : list A) :
  StronglySorted R l1 -> StronglySorted R l2 ->
  (forall x y, In x l1 -> In y l2 -> R x y) ->
  StronglySorted R (l1 ++ l2).
Proof.
  induction 1 as [|x l1 Hs IH Hx]; simpl; intros H2 Hc; [exact H2|].
  constructor.
  - apply IH; [exact H2|]. intros a b Ha Hb. apply Hc; [now right | exact Hb].
  - apply Forall_app. split; [exact Hx|].
    rewrite Forall_forall. intros y Hy. apply Hc; [now left | exact Hy].
Qed.

Lemma boundaries_cons (col : Sql.Column) (n : nat) (page : list Store.Collection)
    (rest : list (list Store.Collection)) :
  boundaries col n (page :: rest) =
  match page_cursor col n page with
  | Some w => w :: boundaries col n rest
  | None => boundaries col n rest
  end.
Proof.
  unfold boundaries. simpl. now destruct (page_cursor col n page).
Qed.

Section WalkInOrder.

Variable col : Sql.Column.
Variable n : nat.
Variable rows : list Store.Collection.

Hypothesis n_positive : (1 <= n)%nat.
Hypothesis rows_nodup : NoDup rows.

Let in_order (a b : Store.Collection) : Prop := desc_nulls_last (Store.volume col a) (Store.volume col b) = true.

Lemma page_sorted (c : option Z) : StronglySorted in_order (page_rows col n rows c).
Proof.
  unfold page_rows. apply sorted_firstn.
  pose proof (ordered_sorted col rows c) as H.
  eapply StronglySorted_ind with (P := StronglySorted in_order) in H; eauto.
  - constructor.
  - intros a l _ IH Ha. constructor; [exact IH|].
    eapply Forall_impl; [|exact Ha]. intros b Hb. unfold in_order.
    now rewrite <- precedes_volume.
Qed.

(** A row of a page that has a cursor has a value, not below the cursor. *)
Lemma page_above_cursor (c : option Z) (w : Z) (x : Store.Collection) :
  page_cursor col n (page_rows col n rows c) = Some w ->
  In x (page_rows col n rows c) ->
  exists v, Store.volume col x = Some v /\ w <= v.
Proof.
  intros Hc Hx. destruct (page_cursor_some _ _ _ Hc) as (front & l & Hpage & Hw).
  rewrite Hpage in Hx.
  destruct (page_before_last col n rows c front l x Hpage Hx) as [-> | D].
  - exists w. split; [exact Hw | lia].
  - rewrite Hw in D. destruct (Store.volume col x) as [v|]; [|discriminate].
    simpl in D. apply Z.leb_le in D. eauto.
Qed.

Lemma page_cursor_full (page : list Store.Collection) (w : Z) :
  page_cursor col n page = Some w -> List.length page = n.
Proof.
  unfold page_cursor. destruct (Nat.eqb_spec (List.length page) n); [auto | discriminate].
Qed.

(** What the pages of a finished walk are like: in order across the
    pages, without repetition, full but for the last, with cursors that
    decrease and are each the value of a row shown. *)
Lemma walk_in_order (fuel : nat) :
  forall c pages,
    walk col n rows fuel c = Some pages ->
    pages <> []
    /\ (forall r, In r (List.concat pages) -> In r rows /\ below col c r = true)
    /\ NoDup (List.concat pages)
    /\ StronglySorted in_order (List.concat pages)
    /\ StronglySorted Z.gt (boundaries col n pages)
    /\ (forall z, In z (boundaries col n pages) ->
          key_below c (Some z) = true
          /\ exists l, In l (List.concat pages) /\ Store.volume col l = Some z)
    /\ Forall (fun page => List.length page = n) (removelast pages)
    /\ page_cursor col n (last pages []) = None
    /\ List.length pages = S (List.length (boundaries col n pages))
    /\ (forall r z, In r rows -> below col c r = true -> Store.volume col r = Some z ->
                    ~ In z (boundaries col n pages) -> In r (List.concat pages)).
Proof.
  induction fuel as [|fuel IH]; intros c pages; [discriminate|].
  simpl. destruct (page_cursor col n (page_rows col n rows c)) as [w|] eqn:Hc.
  - destruct (walk col n rows fuel (Some w)) as [rest|] eqn:Hwalk; [|discriminate].
    simpl. intros [= <-].
    destruct (IH (Some w) rest Hwalk)
      as (Hne & Hin & Hnd & Hso & Hbs & Hbz & Hfull & Hlast & Hlen & Hcov).
    destruct (page_cursor_some _ _ _ Hc) as (front & l & Hpage & Hw).
    assert (Hl : In l (page_rows col n rows c)).
    { rewrite Hpage. apply in_or_app. right. now left. }
    destruct (page_in col n rows c l Hl) as [Hlin Hlb].
    assert (Hrest : forall y, In y (List.concat rest) ->
                      exists u, Store.volume col y = Some u /\ u < w).
    { intros y Hy. destruct (Hin y Hy) as [_ Hb]. unfold below in Hb. 
      destruct (Store.volume col y) as [u|]; [|discriminate].
      apply Z.ltb_lt in Hb. eauto. }
    split; [discriminate|]. split; [|split; [|split; [|split; [|split; [|split;
      [|split; [|split]]]]]]].
    + intros r Hr. apply in_app_or in Hr as [Hr | Hr]; [now apply page_in in Hr|].
      destruct (Hin r Hr) as [H1 H2]. split; [exact H1|].
      exact (@below_cursor col n n_positive c l r w Hlb Hw H2).
    + apply NoDup_app; [now apply page_nodup | exact Hnd |].
      intros x Hx Hx'. destruct (page_above_cursor c x Hc Hx) as (v & Hv & Hle).
      destruct (Hrest x Hx') as (u & Hu & Hlt). rewrite Hv in Hu. injection Hu as <-. lia.
    + apply sorted_append; [apply page_sorted | exact Hso |].
      intros x y Hx Hy. destruct (page_above_cursor c x Hc Hx) as (v & Hv & Hle).
      destruct (Hrest y Hy) as (u & Hu & Hlt). unfold in_order. rewrite Hv, Hu. simpl.
      apply Z.leb_le. lia.
    + rewrite boundaries_cons, Hc. constructor; [exact Hbs|].
      rewrite Forall_forall. intros z Hz. destruct (Hbz z Hz) as [Hk _].
      simpl in Hk. apply Z.ltb_lt in Hk. lia.
    + rewrite boundaries_cons, Hc. intros z [<- | Hz].
      * split.
        -- unfold below in Hlb. unfold key_below. destruct c as [zc|]; [|reflexivity].
           now rewrite Hw in Hlb.
        -- exists l. split; [apply in_or_app; now left | exact Hw].
      * destruct (Hbz z Hz) as [Hk (m & Hm & Hmz)]. split.
        -- unfold below in Hlb. unfold key_below in *. destruct c as [zc|]; [|reflexivity].
           rewrite Hw in Hlb. rewrite Z.ltb_lt in *. lia.
        -- exists m. split; [apply in_or_app; now right | exact Hmz].
    + destruct rest as [|p rest']; [congruence|]. simpl removelast.
      constructor; [exact (page_cursor_full _ Hc) | exact Hfull].
    + destruct rest as [|p rest']; [congruence|]. exact Hlast.
    + rewrite boundaries_cons, Hc. simpl. now rewrite Hlen.
    + intros r z Hr Hb Hz Hnot. rewrite boundaries_cons, Hc in Hnot. simpl in Hnot.
      apply in_or_app.
      destruct (Z.lt_trichotomy z w) as [Lt | [Eq | Gt]].
      * right. apply (Hcov r z); auto.
        unfold below. rewrite Hz. now apply Z.ltb_lt.
      * exfalso. apply Hnot. left. now symmetry.
      * left.
        assert (Ho : In r (Store.sort (Store.precedes (descNullsLast col))
                             (filter (below col c) rows))) by now apply ordered_in.
        rewrite (ordered_split col n rows c) in Ho.
        apply in_app_or in Ho as [Ho | Ho]; [exact Ho|]. exfalso.
        pose proof (page_before_rest col n rows c l r Hl Ho) as D.
        rewrite Hw, Hz in D. simpl in D.
        apply Z.leb_le in D. lia.
  - intros [= <-]. rewrite boundaries_cons, Hc. simpl. rewrite app_nil_r.
    split; [discriminate|]. split; [intros r; apply page_in|].
    split; [now apply page_nodup|]. split; [apply page_sorted|].
    split; [constructor|]. split; [intros z []|]. split; [constructor|].
    split; [exact Hc|]. split; [reflexivity|].
    intros r z Hr Hb Hz _.
    assert (Ho : In r (Store.sort (Store.precedes (descNullsLast col))
                         (filter (below col c) rows))) by now apply ordered_in.
    rewrite (ordered_split col n rows c) in Ho.
    apply in_app_or in Ho as [Ho | Ho]; [exact Ho|]. exfalso.
    destruct (@page_cursor_none col n n_positive _ Hc) as [Hshort | (front & l & Hpage & Hl)].
    + rewrite (@short_page_is_all col n rows n_positive c Hshort) in Ho. contradiction.
    + assert (Hll : In l (page_rows col n rows c)).
      { rewrite Hpage. apply in_or_app. right. now left. }
      pose proof (page_before_rest col n rows c l r Hll Ho) as D.
      rewrite Hl, Hz in D. discriminate.
Qed.

End WalkInOrder.

(** ** The listing a client obtains *)

(** The pages a client obtains are the pages of the walk on the selected
    rows. *)
Lemma paginate_pages (ext : Externals) (db : Store.Snapshot) (raw : Http.Query) (q : Query)
    (fuel : nat) (pages : list Response.Page) :
  validate raw = Ok q ->
  Http.continuation raw = None ->
  paginate ext db fuel raw = Some (Ok pages) ->
  exists selection stored,
    matching ext db q = Ok selection
    /\ walk (sort_column (sortBy q)) (Z.to_nat (limit q)) selection fuel None = Some stored
    /\ pages = map (view ext db q) stored.
Proof.
  intros Hv Hc Hp.
  destruct (filters ext q) as [b|e] eqn:Hf.
  - destruct (@filters_bindable ext q b Hf) as (bs & Hbs & Hb).
    pose proof (@paginate_walk ext db raw q b bs fuel Hv Hf Hb None) as P.
    simpl option_map in P at 1. rewrite (without_continuation raw Hc), Hp in P.
    exists (filter (Store.selected bs) (Store.collections db)).
    destruct (walk _ _ _ fuel None) as [stored|]; [|discriminate].
    exists stored. injection P as ->. repeat split.
    unfold matching. rewrite Hf. simpl. now rewrite Hbs.
  - exfalso. destruct fuel as [|fuel]; [discriminate|]. simpl in Hp.
    unfold listCollections in Hp. rewrite Hv in Hp. simpl in Hp.
    rewrite (handler_resolver_failure ext db q Hf) in Hp. discriminate.
Qed.

Lemma limit_as_nat (raw : Http.Query) (q : Query) :
  validate raw = Ok q ->
  (1 <= Z.to_nat (limit q))%nat /\ Z.of_nat (Z.to_nat (limit q)) = limit q.
Proof.
  intros Hv. pose proof (validate_limit raw Hv) as H. split.
  - apply Nat2Z.inj_le. rewrite Z2Nat.id; simpl; lia.
  - apply Z2Nat.id. lia.
Qed.

Lemma selection_nodup (ext : Externals) (db : Store.Snapshot) (q : Query)
    (selection : list Store.Collection) :
  matching ext db q = Ok selection ->
  NoDup (map Store.id (Store.collections db)) ->
  NoDup selection /\ incl selection (Store.collections db).
Proof.
  unfold matching. intros Hm Hnd. apply bind_ok in Hm as (b & _ & Hm).
  apply bind_ok in Hm as (bs & _ & Hm). injection Hm as <-. split.
  - apply NoDup_filter. eapply NoDup_map_inv. exact Hnd.
  - intros r Hr. now apply filter_In in Hr as [Hr _].
Qed.

(** X9. From page to page the continuation strictly decreases, every page
    before the last one has exactly [limit] collections, and the last page
    is the one whose continuation is null. *)
Theorem continuations_decrease (ext : Externals) (db : Store.Snapshot) (raw : Http.Query)
    (q : Query) (fuel : nat) (pages : list Response.Page) :
  validate raw = Ok q ->
  Http.continuation raw = None ->
  NoDup (map Store.id (Store.collections db)) ->
  paginate ext db fuel raw = Some (Ok pages) ->
  exists zs front final,
    cursors pages = map Numeric.numeric_out zs
    /\ StronglySorted Z.gt zs
    /\ pages = (front ++ [final])%list
    /\ List.length front = List.length zs
    /\ Forall (fun page => Z.of_nat (List.length (Response.collections page)) = limit q)
         front
    /\ Response.continuation final = JNull.
Proof.
  intros Hv Hc Hnd Hp.
  destruct (paginate_pages ext db raw fuel Hv Hc Hp) as (selection & stored & Hm & Hw & ->).
  destruct (limit_as_nat raw Hv) as [Hn Hnz].
  destruct (selection_nodup ext db q Hm Hnd) as [Hsel _].
  destruct (@walk_in_order (sort_column (sortBy q)) (Z.to_nat (limit q)) selection
              Hn Hsel fuel None stored Hw)
    as (Hne & _ & _ & _ & Hbs & _ & Hfull & Hlast & Hlen & _).
  exists (boundaries (sort_column (sortBy q)) (Z.to_nat (limit q)) stored),
    (map (view ext db q) (removelast stored)), (view ext db q (last stored [])).
  split; [apply cursors_view|]. split; [exact Hbs|]. split; [|split; [|split]].
  - rewrite (app_removelast_last [] Hne) at 1. now rewrite map_app.
  - rewrite length_map.
    assert (L : List.length stored = (List.length (removelast stored) + 1)%nat).
    { rewrite (app_removelast_last [] Hne) at 1. now rewrite length_app. }
    lia.
  - rewrite Forall_map. eapply Forall_impl; [|exact Hfull].
    intros page Hpage. simpl. rewrite length_map, Hpage. exact Hnz.
  - simpl. now rewrite Hlast.
Qed.

(** X10. The concatenated pages list the collections in the order of the sort
    column, descending with the collections without value last. *)
Theorem listing_in_order (ext : Externals) (db : Store.Snapshot) (raw : Http.Query)
    (q : Query) (fuel : nat) (pages : list Response.Page) :
  validate raw = Ok q ->
  Http.continuation raw = None ->
  NoDup (map Store.id (Store.collections db)) ->
  paginate ext db fuel raw = Some (Ok pages) ->
  exists shown,
    all_collections pages =
      map (fun r => project ext q (Store.select db (includeTopBid q) r)) shown
    /\ StronglySorted
         (fun a b => desc_nulls_last (Store.volume (sort_column (sortBy q)) a)
                       (Store.volume (sort_column (sortBy q)) b) = true) shown.
Proof.
  intros Hv Hc Hnd Hp.
  destruct (paginate_pages ext db raw fuel Hv Hc Hp) as (selection & stored & Hm & Hw & ->).
  destruct (limit_as_nat raw Hv) as [Hn _].
  destruct (selection_nodup ext db q Hm Hnd) as [Hsel _].
  destruct (@walk_in_order (sort_column (sortBy q)) (Z.to_nat (limit q)) selection
              Hn Hsel fuel None stored Hw)
    as (_ & _ & _ & Hso & _).
  exists (List.concat stored). split; [apply all_collections_view | exact Hso].
Qed.


(** ** One page *)

(** A page that the handler returns shows the rows that the filters
    select, below the cursor of the request, in order, up to the limit. *)
Lemma handler_page_inv (ext : Externals) (db : Store.Snapshot) (q : Query)
    (page : Response.Page) :
  handler ext db q = Ok page ->
  exists selection,
    matching ext db q = Ok selection
    /\ 0 <= limit q
    /\ (forall tok, read_cursor q <> Malformed tok)
    /\ page = view ext db q
                (page_rows (sort_column (sortBy q)) (Z.to_nat (limit q)) selection
                   (resume_value (read_cursor q))).
Proof.
  intros H. pose proof (matching_filters ext db q) as M.
  destruct (filters ext q) as [b|e] eqn:Hf.
  - destruct M as (selection & Hm). exists selection. split; [exact Hm|].
    rewrite (handler_outcome ext db q Hm) in H.
    destruct (read_cursor q) as [|z|tok] eqn:Hc; try discriminate;
      (destruct (Z.ltb_spec (limit q) 0); [discriminate|]); injection H as <-;
      repeat split; auto; discriminate.
  - rewrite (handler_resolver_failure ext db q Hf) in H. discriminate.
Qed.

(** X6. A page has at most [limit] collections, in the order of the sort
    column (descending, without value last), and they are the first in that
    order: a selected row below the cursor that the page does not show comes
    after all the rows it shows. *)
Theorem page_is_the_top (ext : Externals) (db : Store.Snapshot) (q : Query)
    (page : Response.Page) :
  handler ext db q = Ok page ->
  exists selection shown,
    matching ext db q = Ok selection
    /\ Response.collections page =
         map (fun r => project ext q (Store.select db (includeTopBid q) r)) shown
    /\ Z.of_nat (List.length (Response.collections page)) <= limit q
    /\ StronglySorted
         (fun a b => desc_nulls_last (Store.volume (sort_column (sortBy q)) a)
                       (Store.volume (sort_column (sortBy q)) b) = true) shown
    /\ (forall r x,
          In r selection ->
          below (sort_column (sortBy q)) (resume_value (read_cursor q)) r = true ->
          ~ In r shown -> In x shown ->
          desc_nulls_last (Store.volume (sort_column (sortBy q)) x)
            (Store.volume (sort_column (sortBy q)) r) = true).
Proof.
  intros H. apply handler_page_inv in H as (selection & Hm & Hl & _ & ->).
  set (col := sort_column (sortBy q)). set (n := Z.to_nat (limit q)).
  set (c := resume_value (read_cursor q)).
  exists selection, (page_rows col n selection c).
  split; [exact Hm|]. split; [reflexivity|]. split; [|split].
  - simpl. rewrite length_map. unfold page_rows. rewrite length_firstn. lia.
  - apply page_sorted.
  - intros r x Hr Hb Hnot Hx.
    assert (Ho : In r (Store.sort (Store.precedes (descNullsLast col))
                         (filter (below col c) selection))) by now apply ordered_in.
    rewrite (ordered_split col n selection c) in Ho.
    apply in_app_or in Ho as [Ho | Ho]; [contradiction|].
    exact (page_before_rest col n selection c x r Hx Ho).
Qed.


Ltac filter_cases_eqn q :=
  unfold filters, filter_community, filter_collectionsSet, filter_contract,
    filter_name, filter_slug, present, push, update;
  destruct q as [[?|] [?|] [?|] [?|] [?|] ? ? ? ?]; simpl;
  repeat match goal with
         | |- context [(?s =? "")%string] => destruct (s =? "")%string eqn:?; simpl
         end;
  repeat match goal with
         | |- context [getCollectionsIds ?e ?s] =>
             destruct (getCollectionsIds e s) as [[|? ?]|] eqn:?; simpl
         end.




(** The filters of a request are those of the same request with another
    continuation. *)
Lemma matching_with_cursor (ext : Externals) (db : Store.Snapshot) (q : Query)
    (c : option string) (selection : list Store.Collection) :
  matching ext db q = Ok selection ->
  matching ext db (with_cursor q c) = Ok selection.
Proof.
  unfold matching. intros Hm. apply bind_ok in Hm as (b & Hf & Hm).
  apply bind_ok in Hm as (bs & Hbs & Hm). injection Hm as <-.
  rewrite (@filters_with_cursor ext q c b Hf). simpl.
  destruct (@filters_bindable ext q b Hf) as (bs' & Hbs' & Hb).
  rewrite Hbs in Hbs'. injection Hbs' as <-. now rewrite Hb.
Qed.

(** X8. A continuation that a page carries can be sent back: it is the text
    of the sort value of the last collection of the page, the schema
    accepts it, the store reads it as that value, and the next request
    does not fail. *)
Theorem continuation_feeds_back (ext : Externals) (db : Store.Snapshot) (raw : Http.Query)
    (q : Query) (page : Response.Page) (tok : string) :
  validate raw = Ok q ->
  listCollections ext db raw = Ok page ->
  token (Response.continuation page) = Some tok ->
  exists z front l,
    Response.continuation page = JStr tok
    /\ tok = Numeric.numeric_out z
    /\ Numeric.numeric_in tok = Some z
    /\ Response.collections page =
         map (fun r => project ext q (Store.select db (includeTopBid q) r))
           (front ++ [l])%list
    /\ Store.volume (sort_column (sortBy q)) l = Some z
    /\ validate (with_continuation raw (Some tok)) = Ok (with_cursor q (Some tok))
    /\ read_cursor (with_cursor q (Some tok)) = Resume z
    /\ exists next, listCollections ext db (with_continuation raw (Some tok)) = Ok next.
Proof.
  intros Hv Hl Ht. unfold listCollections in Hl. rewrite Hv in Hl. simpl in Hl.
  apply handler_page_inv in Hl as (selection & Hm & Hlim & _ & ->).
  simpl in Ht. rewrite token_deliver in Ht.
  destruct (page_cursor _ _ _) as [z|] eqn:Hc; [|discriminate]. injection Ht as <-.
  destruct (page_cursor_some _ _ _ Hc) as (front & l & Hpage & Hz).
  exists z, front, l. simpl. rewrite Hc, Hpage.
  assert (Hr : read_cursor (with_cursor q (Some (Numeric.numeric_out z))) = Resume z).
  { unfold read_cursor. cbn [continuation with_cursor].
    now rewrite present_numeric_out, numeric_in_out. }
  pose proof (validate_with_continuation raw (Some z) Hv) as Hv'. simpl in Hv'.
  repeat split; auto using numeric_in_out.
  unfold listCollections. rewrite Hv'. simpl.
  rewrite (handler_outcome ext db _ (matching_with_cursor ext db q _ Hm)), Hr. simpl.
  destruct (Z.ltb_spec (limit q) 0); [lia | eauto].
Qed.


(** ** The schema of the request *)

Lemma lower_ascii_idempotent (c : ascii) : lower_ascii (lower_ascii c) = lower_ascii c.
Proof. destruct c as [[] [] [] [] [] [] [] []]; reflexivity. Qed.

Lemma toLowerCase_idempotent (s : string) : toLowerCase (toLowerCase s) = toLowerCase s.
Proof.
  induction s as [|c s IH]; simpl; [reflexivity|].
  now rewrite lower_ascii_idempotent, IH.
Qed.

Lemma toLowerCase_empty (s : string) : (toLowerCase s =? "")%string = (s =? "")%string.
Proof. now destruct s. Qed.

Lemma is_address_not_empty (s : string) : is_address s = true -> (s =? "")%string = false.
Proof. now destruct s. Qed.

(** What the schema makes of a request that it accepts. *)
Lemma validate_ok (raw : Http.Query) (q : Query) :
  validate raw = Ok q ->
  keys_conform raw = true
  /\ q = {| collectionsSetId := option_map toLowerCase (Http.collectionsSetId raw);
            community := option_map toLowerCase (Http.community raw);
            contract := option_map toLowerCase (Http.contract raw);
            name := option_map toLowerCase (Http.name raw);
            slug := option_map toLowerCase (Http.slug raw);
            sortBy := Some match Http.sortBy raw with
                           | Some s => s
                           | None => "allTimeVolume"
                           end;
            includeTopBid := match Http.includeTopBid raw with
                             | Some b => b
                             | None => false
                             end;
            limit := match Http.limit raw with Some n => n | None => 20 end;
            continuation := Http.continuation raw |}.
Proof.
  rewrite validate_is_keys. unfold validate_keys, keys_conform, not_empty.
  unfold joi_address, joi_lowercase, joi_string, joi_sortBy, joi_limit.
  destruct raw as [cs cm ct nm sl sb tb lm cn]. simpl.
  destruct cs as [cs|]; [destruct (cs =? "")%string; simpl; [discriminate|]|]; simpl;
  (destruct cm as [cm|]; [destruct (cm =? "")%string; simpl; [discriminate|]|]; simpl);
  (destruct ct as [ct|];
   [destruct (ct =? "")%string eqn:Ect; simpl; [discriminate|];
    destruct (is_address (toLowerCase ct)); simpl; [|discriminate]|]; simpl);
  (destruct nm as [nm|]; [destruct (nm =? "")%string; simpl; [discriminate|]|]; simpl);
  (destruct sl as [sl|]; [destruct (sl =? "")%string; simpl; [discriminate|]|]; simpl);
  (destruct sb as [sb|];
   [match goal with
    | |- context [if ?t then Ok (Some sb) else _] => destruct t
    end; simpl; [|discriminate]|]; simpl);
  (destruct lm as [lm|];
   [destruct (Z.ltb_spec lm 1); simpl; [discriminate|];
    destruct (Z.ltb_spec 20 lm); simpl; [discriminate|];
    replace (1 <=? lm) with true by (symmetry; apply Z.leb_le; lia);
    replace (lm <=? 20) with true by (symmetry; apply Z.leb_le; lia)|]; simpl);
  (destruct cn as [cn|]; [destruct (cn =? "")%string; simpl; [discriminate|]|]; simpl);
  intros [= <-]; split; reflexivity.
Qed.

Lemma validate_conform (raw : Http.Query) :
  keys_conform raw = true -> exists q, validate raw = Ok q.
Proof.
  rewrite validate_is_keys. unfold validate_keys, keys_conform, not_empty.
  unfold joi_address, joi_lowercase, joi_string, joi_sortBy, joi_limit.
  destruct raw as [cs cm ct nm sl sb tb lm cn]. simpl.
  rewrite !andb_true_iff. intros (((((((H1 & H2) & H3) & H4) & H5) & H6) & H7) & H8).
  destruct cs as [cs|]; [rewrite (negb_true_iff _) in H1; rewrite H1|]; simpl;
  (destruct cm as [cm|]; [rewrite (negb_true_iff _) in H2; rewrite H2|]; simpl);
  (destruct ct as [ct|];
   [rewrite <- (toLowerCase_empty ct), (is_address_not_empty _ H3); simpl;
    rewrite H3|]; simpl);
  (destruct nm as [nm|]; [rewrite (negb_true_iff _) in H4; rewrite H4|]; simpl);
  (destruct sl as [sl|]; [rewrite (negb_true_iff _) in H5; rewrite H5|]; simpl);
  (destruct sb as [sb|]; [simpl in H6; rewrite H6|]; simpl);
  (destruct lm as [lm|];
   [apply andb_true_iff in H7 as [Ha Hb]; apply Z.leb_le in Ha, Hb;
    destruct (Z.ltb_spec lm 1); [lia|]; destruct (Z.ltb_spec 20 lm); [lia|]|]; simpl);
  (destruct cn as [cn|]; [rewrite (negb_true_iff _) in H8; rewrite H8|]; simpl);
  eauto.
Qed.

(** X2. The schema accepts a request exactly when each key that is given
    obeys its own rule: a string is not empty, the contract is an address,
    the sort selector is one of the four, the limit is between 1 and 20.
    No rule ties one key to another. *)
Theorem schema_accepts_iff (raw : Http.Query) :
  is_ok (validate raw) = keys_conform raw.
Proof.
  destruct (validate raw) as [q|e] eqn:Hv; simpl.
  - symmetry. now apply validate_ok in Hv as [H _].
  - destruct (keys_conform raw) eqn:Hk; [|reflexivity].
    destruct (validate_conform raw Hk) as (q & Hq). congruence.
Qed.



Lemma joi_lowercase_lower (key : string) (o : option string) :
  not_empty o = true ->
  joi_lowercase key (option_map toLowerCase o) = Ok (option_map toLowerCase o).
Proof.
  unfold joi_lowercase, joi_string. destruct o as [s|]; simpl; [|reflexivity].
  rewrite toLowerCase_empty. intros H. apply negb_true_iff in H. rewrite H. simpl.
  now rewrite toLowerCase_idempotent.
Qed.

Lemma joi_address_lower (key : string) (o : option string) :
  match o with Some c => is_address (toLowerCase c) | None => true end = true ->
  joi_address key (option_map toLowerCase o) = Ok (option_map toLowerCase o).
Proof.
  unfold joi_address, joi_lowercase, joi_string. destruct o as [s|]; simpl; [|reflexivity].
  intros H. rewrite (is_address_not_empty _ H). simpl.
  now rewrite toLowerCase_idempotent, H.
Qed.

(** X3. Validation is idempotent: a validated query, sent as a request, is
    accepted and is itself the result. *)
Theorem validate_idempotent (raw : Http.Query) (q : Query) :
  validate raw = Ok q -> validate (as_request q) = Ok q.
Proof.
  intros Hv. destruct (validate_ok raw Hv) as [Hk Hq].
  unfold keys_conform in Hk. rewrite !andb_true_iff in Hk.
  destruct Hk as (((((((H1 & H2) & H3) & H4) & H5) & H6) & H7) & H8).
  rewrite validate_is_keys. unfold validate_keys. rewrite Hq. cbn [as_request
    Http.collectionsSetId Http.community Http.contract Http.name Http.slug Http.sortBy
    Http.includeTopBid Http.limit Http.continuation collectionsSetId community contract
    name slug sortBy includeTopBid limit continuation].
  rewrite (joi_lowercase_lower _ _ H1), (joi_lowercase_lower _ _ H2),
    (joi_address_lower _ _ H3), (joi_lowercase_lower _ _ H4), (joi_lowercase_lower _ _ H5).
  cbn [bind].
  assert (S : joi_sortBy (Some match Http.sortBy raw with
                               | Some s => s
                               | None => "allTimeVolume"
                               end)
              = Ok (Some match Http.sortBy raw with
                         | Some s => s
                         | None => "allTimeVolume"
                         end)).
  { unfold joi_sortBy. destruct (Http.sortBy raw) as [s|]; [now rewrite H6 | reflexivity]. }
  rewrite S. cbn [bind].
  assert (L : joi_limit (Some match Http.limit raw with Some n => n | None => 20 end)
              = Ok match Http.limit raw with Some n => n | None => 20 end).
  { unfold joi_limit. destruct (Http.limit raw) as [n|]; [|reflexivity].
    apply andb_true_iff in H7 as [Ha Hb]. apply Z.leb_le in Ha, Hb.
    destruct (Z.ltb_spec n 1); [lia|]. destruct (Z.ltb_spec 20 n); [lia | reflexivity]. }
  rewrite L. cbn [bind].
  assert (C : joi_string "continuation" (Http.continuation raw)
              = Ok (Http.continuation raw)).
  { unfold joi_string. destruct (Http.continuation raw) as [c|]; [|reflexivity].
    simpl in H8. apply negb_true_iff in H8. now rewrite H8. }
  rewrite C. reflexivity.
Qed.

(** ** The conditions of a request *)

Lemma filters_conditions (ext : Externals) (q : Query) (b : Building) :
  filters ext q = Ok b ->
  NoDup (fst b)
  /\ (In Sql.CommunityEq (fst b) <-> present (community q) = true)
  /\ (In Sql.ContractEq (fst b) <-> present (contract q) = true)
  /\ (In Sql.NameILike (fst b) <-> present (name q) = true)
  /\ (In Sql.SlugEq (fst b) <-> present (slug q) = true)
  /\ (In Sql.IdIn (fst b) <->
      exists s i ids, collectionsSetId q = Some s /\ present (Some s) = true
                      /\ getCollectionsIds ext s = Ok (i :: ids))
  /\ (forall c, ~ In (Sql.VolumeLt c) (fst b)).
Proof.
  filter_cases_eqn q; try discriminate; intros [= <-]; simpl;
    (split; [repeat constructor; simpl; intuition discriminate|]);
    repeat split; try (intros; intuition (discriminate || congruence)); intros;
    repeat match goal with
           | H : exists _, _ |- _ => destruct H
           | H : _ /\ _ |- _ => destruct H
           | H : Some _ = Some _ |- _ => injection H as H; subst
           | H : None = Some _ |- _ => discriminate H
           | H : negb ?b = true, E : ?b = true |- _ => rewrite E in H; discriminate H
           | H : getCollectionsIds ?e ?s = Ok _, E : getCollectionsIds ?e ?s = _ |- _ =>
               rewrite E in H; discriminate H
           end;
    try (simpl; tauto);
    try (do 3 eexists; repeat split; try reflexivity; try eassumption;
         match goal with E : ?b = false |- negb ?b = true => now rewrite E end).
Qed.

(** X4. The statement of a request has one condition for each filter that is
    given (for the collection set, when it resolves to identifiers) and the
    resume condition when a continuation is given, none of them twice and
    no other; the limit and the continuation of the request are its
    parameters. *)
Theorem conditions_of_request (ext : Externals) (q : Query) (st : Sql.Statement)
    (p : Sql.Params) :
  compose ext q = Ok (st, p) ->
  NoDup (Sql.conditions st)
  /\ (In Sql.CommunityEq (Sql.conditions st) <-> present (community q) = true)
  /\ (In Sql.ContractEq (Sql.conditions st) <-> present (contract q) = true)
  /\ (In Sql.NameILike (Sql.conditions st) <-> present (name q) = true)
  /\ (In Sql.SlugEq (Sql.conditions st) <-> present (slug q) = true)
  /\ (In Sql.IdIn (Sql.conditions st) <->
      exists s i ids, collectionsSetId q = Some s /\ present (Some s) = true
                      /\ getCollectionsIds ext s = Ok (i :: ids))
  /\ (forall c, In (Sql.VolumeLt c) (Sql.conditions st) <->
                present (continuation q) = true /\ c = sort_column (sortBy q))
  /\ Sql.limit p = limit q
  /\ Sql.continuation p = continuation q
  /\ Sql.topBidJoin st = includeTopBid q.
Proof.
  rewrite compose_spec. intros H. apply bind_ok in H as (b & Hf & H).
  injection H as <- <-. simpl.
  destruct (filters_conditions ext q Hf) as (Hnd & H1 & H2 & H3 & H4 & H5 & H6).
  destruct (@filters_params ext q b Hf) as [Hc Hl].
  unfold resume. destruct (present (continuation q)) eqn:Hp.
  - assert (A : forall x, x <> Sql.VolumeLt (sort_column (sortBy q)) ->
              (In x (fst b ++ [Sql.VolumeLt (sort_column (sortBy q))])%list <-> In x (fst b))).
    { intros x Hx. rewrite in_app_iff. simpl. intuition congruence. }
    split.
    { apply NoDup_app; [exact Hnd | repeat constructor; simpl; tauto |].
      intros x Hx [<- | []]. exact (H6 _ Hx). }
    split; [rewrite A by discriminate; exact H1|].
    split; [rewrite A by discriminate; exact H2|].
    split; [rewrite A by discriminate; exact H3|].
    split; [rewrite A by discriminate; exact H4|].
    split; [rewrite A by discriminate; exact H5|].
    split; [|repeat split; auto].
    intros c. split.
    + intros H. apply in_app_or in H as [H | [H | []]]; [now destruct (H6 _ H)|].
      split; [reflexivity | congruence].
    + intros [_ ->]. apply in_or_app. right. now left.
  - split; [exact Hnd|]. split; [exact H1|]. split; [exact H2|]. split; [exact H3|].
    split; [exact H4|]. split; [exact H5|]. split; [|repeat split; auto].
    intros c. split.
    + intros H. now destruct (H6 _ H).
    + intros [H _]. discriminate.
Qed.

(** ** The projection of a row *)

(** X12. The sample images of a collection are at most four, each the image of
    a token of the collection, in the order of the tokens; the image of the
    collection is the one of its metadata when that is a non-empty string,
    and else the first sample image, or null when there is none. *)
Theorem image_and_samples (ext : Externals) (db : Store.Snapshot) (q : Query)
    (withTopBid : bool) (r : Store.Collection) :
  let out := project ext q (Store.select db withTopBid r) in
  Response.sampleImages out =
    firstn 4 (map Store.image
                (filter (fun t => match Store.collection_id t with
                                  | Some c => (c =? Store.id r)%string
                                  | None => false
                                  end) (Store.tokens db)))
  /\ (List.length (Response.sampleImages out) <= 4)%nat
  /\ (forall i, In i (Response.sampleImages out) ->
        exists t, In t (Store.tokens db)
                  /\ Store.collection_id t = Some (Store.id r)
                  /\ Store.image t = i)
  /\ (forall s, Store.imageUrl (Store.metadata r) = Some s -> s <> "" ->
        Response.image out = Some s)
  /\ (Store.imageUrl (Store.metadata r) = None
      \/ Store.imageUrl (Store.metadata r) = Some "" ->
      Response.image out = match Response.sampleImages out with
                           | first :: _ => first
                           | [] => None
                           end)
  /\ ((forall t, In t (Store.tokens db) ->
         Store.collection_id t <> Some (Store.id r)) ->
      Response.sampleImages out = []).
Proof.
  intros out. subst out. simpl. unfold Store.sample_images.
  split; [reflexivity|]. split; [apply firstn_le_length|]. split; [|split; [|split]].
  - intros i Hi. apply in_firstn in Hi. apply in_map_iff in Hi as (t & Ht & Hin).
    apply filter_In in Hin as [Hin Hc]. exists t. repeat split; auto.
    destruct (Store.collection_id t) as [c|]; [|discriminate].
    apply String.eqb_eq in Hc. now subst.
  - intros s Hs Hne. rewrite Hs. simpl.
    destruct (String.eqb_spec s ""); [contradiction | reflexivity].
  - intros [H | H]; rewrite H; reflexivity.
  - intros Hnone.
    replace (filter _ (Store.tokens db)) with (@nil Store.Token); [reflexivity|].
    symmetry. induction (Store.tokens db) as [|t l IH]; [reflexivity|]. simpl.
    assert (Ht := Hnone t (or_introl eq_refl)).
    destruct (Store.collection_id t) as [c|].
    + destruct (String.eqb_spec c (Store.id r)); [subst; now destruct Ht|].
      apply IH. intros t' Ht'. apply Hnone. now right.
    + apply IH. intros t' Ht'. apply Hnone. now right.
Qed.





(** ** The schema of the response *)

Lemma forallb_map {A B : Type} (f : B -> bool) (g : A -> B) (l : list A) :
  forallb f (map g l) = forallb (fun x => f (g x)) l.
Proof. induction l as [|x l IH]; simpl; [reflexivity | now rewrite IH]. Qed.

Lemma joi_text_numeric (z : Z) : joi_text (Numeric.numeric_out z) = true.
Proof.
  unfold joi_text. destruct (String.eqb_spec (Numeric.numeric_out z) ""); [|reflexivity].
  now destruct (numeric_out_not_empty z).
Qed.

Lemma collection_conforms_project (ext : Externals) (db : Store.Snapshot) (q : Query)
    (r : Store.Collection) :
  collection_conforms (project ext q (Store.select db (includeTopBid q) r)) =
  row_conforms ext db (includeTopBid q) r.
Proof.
  unfold collection_conforms, row_conforms. simpl.
  rewrite joi_text_numeric, andb_true_r.
  unfold joi_text_or_null, joi_address_text, joi_text.
  destruct (includeTopBid q); simpl; [|reflexivity].
  destruct (Store.top_bid db r) as [s|]; simpl; [|reflexivity].
  now destruct (Store.top_buy_maker s).
Qed.

(** X14. A page of the handler passes the schema of the response exactly when
    each row it shows has a non-empty identifier, no empty token set
    identifier, and a contract (and, when asked for, a top bid maker) that
    [fromBuffer] writes as an address. The token count and the continuation
    always pass. *)
Theorem response_conforms_iff (ext : Externals) (db : Store.Snapshot) (q : Query)
    (page : Response.Page) :
  handler ext db q = Ok page ->
  exists shown,
    Response.collections page =
      map (fun r => project ext q (Store.select db (includeTopBid q) r)) shown
    /\ response_conforms page = forallb (row_conforms ext db (includeTopBid q)) shown
    /\ continuation_conforms (Response.continuation page) = true
    /\ Forall (fun c => joi_text (Response.tokenCount c) = true)
         (Response.collections page).
Proof.
  intros H. apply handler_page_inv in H as (selection & _ & _ & _ & ->).
  eexists. split; [reflexivity|].
  assert (C : continuation_conforms
                (Response.continuation
                   (view ext db q
                      (page_rows (sort_column (sortBy q)) (Z.to_nat (limit q)) selection
                         (resume_value (read_cursor q))))) = true).
  { simpl. destruct (page_cursor _ _ _) as [z|]; simpl; [apply joi_text_numeric | reflexivity]. }
  split; [|split; [exact C|]].
  - unfold response_conforms. rewrite C, andb_true_r. clear C. simpl Response.collections.
    rewrite forallb_map.
    induction (page_rows _ _ _ _) as [|r l IH]; simpl; [reflexivity|].
    now rewrite IH, collection_conforms_project.
  - simpl. rewrite Forall_map. rewrite Forall_forall. intros r _. simpl.
    apply joi_text_numeric.
Qed.

(** * The further properties on sample data *)


Lemma validate_idempotent_sample :
  let raw := Sample.by_contract "0xABC0000000000000000000000000000000000abc" "7DayVolume" 2 in
  let q := Sample.contract_query Sample.abc "7DayVolume" 2 in
  validate raw = Ok q /\ validate (as_request q) = Ok q.
Proof.
  intros raw q.
  assert (H : validate raw = Ok q) by (vm_compute; reflexivity).
  split; [exact H|]. exact (validate_idempotent raw H).
Defined.

Lemma conditions_of_request_sample :
  let q := with_cursor (Sample.set_query "blue-chips") (Some "40") in
  let st := {| Sql.conditions := [Sql.CommunityEq; Sql.IdIn; Sql.VolumeLt Sql.AllTimeVolume];
               Sql.orderBy := descNullsLast Sql.AllTimeVolume;
               Sql.topBidJoin := false |} in
  let p := set_collectionsIds ["c1"; "c3"] (params_of q) in
  compose Sample.ext q = Ok (st, p)
  /\ NoDup (Sql.conditions st)
  /\ (In Sql.ContractEq (Sql.conditions st) <-> present (contract q) = true).
Proof.
  intros q st p.
  assert (H : compose Sample.ext q = Ok (st, p)) by reflexivity.
  destruct (conditions_of_request Sample.ext q H) as (Hnd & _ & Hc & _).
  split; [exact H|]. split; [exact Hnd | exact Hc].
Defined.


Lemma page_is_the_top_sample :
  let q := Sample.contract_query Sample.abc "7DayVolume" 2 in
  let page := view Sample.ext Sample.three q [Sample.c50; Sample.c30] in
  handler Sample.ext Sample.three q = Ok page
  /\ Z.of_nat (List.length (Response.collections page)) <= limit q.
Proof.
  intros q page.
  assert (H : handler Sample.ext Sample.three q = Ok page) by (vm_compute; reflexivity).
  destruct (page_is_the_top Sample.ext Sample.three q H) as (sel & shown & _ & _ & Hle & _).
  split; [exact H | exact Hle].
Defined.


Lemma continuation_feeds_back_sample :
  let raw := Sample.by_contract Sample.abc "7DayVolume" 2 in
  let q := Sample.contract_query Sample.abc "7DayVolume" 2 in
  let page := view Sample.ext Sample.three q [Sample.c50; Sample.c30] in
  validate raw = Ok q
  /\ listCollections Sample.ext Sample.three raw = Ok page
  /\ token (Response.continuation page) = Some "30"
  /\ exists next,
       listCollections Sample.ext Sample.three (with_continuation raw (Some "30")) = Ok next.
Proof.
  intros raw q page.
  assert (H1 : validate raw = Ok q) by (vm_compute; reflexivity).
  assert (H2 : listCollections Sample.ext Sample.three raw = Ok page)
    by (vm_compute; reflexivity).
  assert (H3 : token (Response.continuation page) = Some "30") by reflexivity.
  destruct (continuation_feeds_back Sample.ext Sample.three raw H1 H2 H3)
    as (z & front & l & _ & _ & _ & _ & _ & _ & _ & Hnext).
  split; [exact H1|]. split; [exact H2|]. split; [exact H3 | exact Hnext].
Defined.

Lemma continuations_decrease_sample :
  let raw := Sample.by_contract Sample.abc "7DayVolume" 2 in
  let q := Sample.contract_query Sample.abc "7DayVolume" 2 in
  let pages := map (view Sample.ext Sample.three q)
                 [[Sample.c50; Sample.c30]; [Sample.c10]] in
  validate raw = Ok q
  /\ Http.continuation raw = None
  /\ NoDup (map Store.id (Store.collections Sample.three))
  /\ paginate Sample.ext Sample.three 5 raw = Some (Ok pages)
  /\ exists zs front final,
       cursors pages = map Numeric.numeric_out zs
       /\ StronglySorted Z.gt zs
       /\ pages = (front ++ [final])%list
       /\ List.length front = List.length zs
       /\ Forall (fun page =>
                    Z.of_nat (List.length (Response.collections page)) = limit q) front
       /\ Response.continuation final = JNull.
Proof.
  intros raw q pages.
  assert (H1 : validate raw = Ok q) by (vm_compute; reflexivity).
  assert (H2 : Http.continuation raw = None) by reflexivity.
  assert (H3 : NoDup (map Store.id (Store.collections Sample.three)))
    by (simpl; repeat constructor; simpl; intuition discriminate).
  assert (H4 : paginate Sample.ext Sample.three 5 raw = Some (Ok pages))
    by (vm_compute; reflexivity).
  split; [exact H1|]. split; [exact H2|]. split; [exact H3|]. split; [exact H4|].
  exact (continuations_decrease Sample.ext Sample.three raw 5 H1 H2 H3 H4).
Defined.

Lemma listing_in_order_sample :
  let raw := Sample.by_contract Sample.abc "7DayVolume" 2 in
  let q := Sample.contract_query Sample.abc "7DayVolume" 2 in
  let pages := map (view Sample.ext Sample.three q)
                 [[Sample.c50; Sample.c30]; [Sample.c10]] in
  validate raw = Ok q
  /\ Http.continuation raw = None
  /\ NoDup (map Store.id (Store.collections Sample.three))
  /\ paginate Sample.ext Sample.three 5 raw = Some (Ok pages)
  /\ exists shown,
       all_collections pages =
         map (fun r => project Sample.ext q
                         (Store.select Sample.three (includeTopBid q) r)) shown
       /\ StronglySorted
            (fun a b => desc_nulls_last (Store.volume (sort_column (sortBy q)) a)
                          (Store.volume (sort_column (sortBy q)) b) = true) shown.
Proof.
  intros raw q pages.
  assert (H1 : validate raw = Ok q) by (vm_compute; reflexivity).
  assert (H2 : Http.continuation raw = None) by reflexivity.
  assert (H3 : NoDup (map Store.id (Store.collections Sample.three)))
    by (simpl; repeat constructor; simpl; intuition discriminate).
  assert (H4 : paginate Sample.ext Sample.three 5 raw = Some (Ok pages))
    by (vm_compute; reflexivity).
  split; [exact H1|]. split; [exact H2|]. split; [exact H3|]. split; [exact H4|].
  exact (listing_in_order Sample.ext Sample.three raw 5 H1 H2 H3 H4).
Defined.


Lemma response_conforms_sample :
  let q := Sample.contract_query Sample.abc "7DayVolume" 2 in
  let page := view Sample.ext Sample.three q [Sample.c50; Sample.c30] in
  handler Sample.ext Sample.three q = Ok page
  /\ response_conforms page = true
  /\ continuation_conforms (Response.continuation page) = true.
Proof.
  intros q page.
  assert (H : handler Sample.ext Sample.three q = Ok page) by (vm_compute; reflexivity).
  destruct (response_conforms_iff Sample.ext Sample.three q H) as (shown & _ & _ & C & _).
  split; [exact H|]. split; [vm_compute; reflexivity | exact C].
Defined.

